(** * vintedreposter: a shallow embedding of the reposting client

    The development follows the Python sources module by module:
    [curl_parser.py], [vinted.py], [browser_reposter.py], [cli.py] and
    [browser_login.py].  Python values that come from JSON are values of
    the type [json]; Python dictionaries are insertion-ordered
    association lists with unique keys; code that may raise returns a
    value of [res], with the exception class as the error.

    Modelling domain.  Text is ASCII: a Python [str] is a [string] of
    [ascii] characters and the character classes ([isspace], [isdigit],
    [lower]) are those of the ASCII range.  A JSON float is carried by its
    exact rational value: binary64 rounding, infinities and NaN are not
    modelled.  Library functions that live outside the repository
    ([float] and [int] on text, [datetime.fromisoformat], [jwt.decode],
    [urllib.parse.urlparse]) are parameters of the functions that call
    them. *)

From Stdlib Require Import ZArith QArith Qround String Ascii List Bool Lia.
From Stdlib Require Import Permutation Sorted.
Import ListNotations.

Local Open Scope string_scope.
Local Open Scope Z_scope.

(** ** Exceptions and results *)

Inductive exn : Type :=
| TypeError
| ValueError
| AttributeError
| StopIteration
| HTTPError
| JSONDecodeError.

Inductive res (A : Type) : Type :=
| Ok (a : A)
| Raise (e : exn).

Arguments Ok {A} a.
Arguments Raise {A} e.

Definition bind {A B : Type} (m : res A) (f : A -> res B) : res B :=
  match m with
  | Ok a => f a
  | Raise e => Raise e
  end.

Declare Scope py_scope.
Delimit Scope py_scope with py.
Notation "x <- m ;; k" := (bind m (fun x => k))
  (at level 61, m at next level, right associativity) : py_scope.
Notation "' p <- m ;; k" := (bind m (fun x => match x with p => k end))
  (at level 61, p pattern, m at next level, right associativity) : py_scope.

(** [try: m except Exception: h] *)
Definition try_except {A : Type} (m : res A) (h : A) : A :=
  match m with
  | Ok a => a
  | Raise _ => h
  end.

(** ** Python [str] methods *)

Module Str.

Definition code (c : ascii) : N := N_of_ascii c.

(** [str.isspace] on one character (also the class [\s] of [re]). *)
Definition isspace (c : ascii) : bool :=
  let n := code c in
  ((9 <=? n) && (n <=? 13) || (28 <=? n) && (n <=? 32))%N.

(** One decimal digit (also the class [\d] of [re]). *)
Definition isdigit_char (c : ascii) : bool :=
  let n := code c in ((48 <=? n) && (n <=? 57))%N.

Fixpoint all_chars (p : ascii -> bool) (s : string) : bool :=
  match s with
  | EmptyString => true
  | String c s' => p c && all_chars p s'
  end.

(** [s.isdigit()]: non-empty and every character a digit. *)
Definition isdigit (s : string) : bool :=
  match s with
  | EmptyString => false
  | _ => all_chars isdigit_char s
  end.

(** Truth value of a string: non-empty. *)
Definition truthy (s : string) : bool :=
  match s with
  | EmptyString => false
  | _ => true
  end.

Definition digit_val (c : ascii) : Z := Z.of_N (code c) - 48.

Fixpoint int_acc (acc : Z) (s : string) : Z :=
  match s with
  | EmptyString => acc
  | String c s' => int_acc (10 * acc + digit_val c) s'
  end.

(** [int(s)] for a string of decimal digits. *)
Definition int (s : string) : Z := int_acc 0 s.

Fixpoint lstrip (s : string) : string :=
  match s with
  | EmptyString => EmptyString
  | String c s' => if isspace c then lstrip s' else s
  end.

Fixpoint rstrip (s : string) : string :=
  match s with
  | EmptyString => EmptyString
  | String c s' =>
      match rstrip s' with
      | EmptyString => if isspace c then EmptyString else String c EmptyString
      | r => String c r
      end
  end.

(** [s.strip()] *)
Definition strip (s : string) : string := rstrip (lstrip s).

Definition lower_char (c : ascii) : ascii :=
  let n := code c in
  if ((65 <=? n) && (n <=? 90))%N then ascii_of_N (n + 32) else c.

(** [s.lower()] *)
Fixpoint lower (s : string) : string :=
  match s with
  | EmptyString => EmptyString
  | String c s' => String (lower_char c) (lower s')
  end.

(** [c in s] for a one-character [c]. *)
Fixpoint contains (c : ascii) (s : string) : bool :=
  match s with
  | EmptyString => false
  | String d s' => Ascii.eqb c d || contains c s'
  end.

(** [s.split(c)] for a one-character separator: at least one field. *)
Fixpoint split (c : ascii) (s : string) : list string :=
  match s with
  | EmptyString => [EmptyString]
  | String d s' =>
      if Ascii.eqb c d then EmptyString :: split c s'
      else match split c s' with
           | [] => [String d EmptyString]
           | f :: fs => String d f :: fs
           end
  end.

(** [s.split(c, 1)] when [c in s]: the text before the first [c] and the
    text after it. *)
Fixpoint split_once (c : ascii) (s : string) : option (string * string) :=
  match s with
  | EmptyString => None
  | String d s' =>
      if Ascii.eqb c d then Some (EmptyString, s')
      else match split_once c s' with
           | Some (a, b) => Some (String d a, b)
           | None => None
           end
  end.

(** [s.replace(c, r)] for a one-character [c]: every occurrence. *)
Fixpoint replace (c : ascii) (r : string) (s : string) : string :=
  match s with
  | EmptyString => EmptyString
  | String d s' =>
      if Ascii.eqb c d then r ++ replace c r s' else String d (replace c r s')
  end.

(** [s.endswith(c)] for a one-character [c]. *)
Fixpoint endswith (c : ascii) (s : string) : bool :=
  match s with
  | EmptyString => false
  | String d EmptyString => Ascii.eqb c d
  | String _ s' => endswith c s'
  end.

Fixpoint take (n : nat) (s : string) : string :=
  match n, s with
  | S n', String c s' => String c (take n' s')
  | _, _ => EmptyString
  end.

End Str.

(** ** Insertion-ordered dictionaries with string keys *)

Module Dict.

Definition t (V : Type) : Type := list (string * V).

Fixpoint get {V : Type} (k : string) (d : t V) : option V :=
  match d with
  | [] => None
  | (k', v) :: d' => if String.eqb k k' then Some v else get k d'
  end.

(** [d[k] = v]: the value is replaced in place, a new key goes last. *)
Fixpoint set {V : Type} (k : string) (v : V) (d : t V) : t V :=
  match d with
  | [] => [(k, v)]
  | (k', v') :: d' =>
      if String.eqb k k' then (k', v) :: d' else (k', v') :: set k v d'
  end.

Definition mem {V : Type} (k : string) (d : t V) : bool :=
  match get k d with
  | Some _ => true
  | None => false
  end.

(** [d.setdefault(k, v)] used as a statement. *)
Definition setdefault {V : Type} (k : string) (v : V) (d : t V) : t V :=
  if mem k d then d else set k v d.

(** [d.update(e)] *)
Definition update {V : Type} (d e : t V) : t V :=
  fold_left (fun acc kv => set (fst kv) (snd kv) acc) e d.

End Dict.

(** ** The fragment of Python's [re] the sources use

    Literals, greedy repetition of a character class with backtracking,
    capturing groups, sequence and ordered alternation.  The matcher is
    written in continuation-passing style, so that a later failure sends
    the search back into the last repetition or alternative, as the
    backtracking engine of [re] does. *)

Module Re.

Inductive cls : Type :=
| CSpace                 (* \s *)
| CNotSpace              (* [^\s] *)
| CDigit                 (* \d *)
| CNot (c : ascii).      (* [^c] *)

Definition cls_mem (k : cls) (c : ascii) : bool :=
  match k with
  | CSpace => Str.isspace c
  | CNotSpace => negb (Str.isspace c)
  | CDigit => Str.isdigit_char c
  | CNot d => negb (Ascii.eqb c d)
  end.

Inductive regex : Type :=
| Lit (s : string)
| Rep (k : cls) (min : nat)      (* k*  is [Rep k 0],  k+  is [Rep k 1] *)
| Grp (i : nat) (r : regex)      (* the i-th parenthesis *)
| Seq (r1 r2 : regex)
| Alt (r1 r2 : regex).

Definition cat (rs : list regex) : regex := fold_right Seq (Lit "") rs.

(** Captured groups, the most recently closed first. *)
Definition groups : Type := list (nat * string).

Fixpoint group (i : nat) (g : groups) : option string :=
  match g with
  | [] => None
  | (j, s) :: g' => if Nat.eqb i j then Some s else group i g'
  end.

Fixpoint lit (p s : string) : option string :=
  match p, s with
  | EmptyString, _ => Some s
  | String a p', String b s' => if Ascii.eqb a b then lit p' s' else None
  | String _ _, EmptyString => None
  end.

Section Matcher.
Context {A : Type}.

(** Greedy [k{min,}]: take the longest run first, give characters back
    one at a time while the continuation fails. *)
Fixpoint rep (k : cls) (min n : nat) (s : string)
         (cont : string -> option A) : option A :=
  let stop := if Nat.leb min n then cont s else None in
  match s with
  | EmptyString => stop
  | String c s' =>
      if cls_mem k c then
        match rep k min (S n) s' cont with
        | Some a => Some a
        | None => stop
        end
      else stop
  end.

Fixpoint run (r : regex) (s : string) (g : groups)
         (cont : string -> groups -> option A) : option A :=
  match r with
  | Lit p =>
      match lit p s with
      | Some rest => cont rest g
      | None => None
      end
  | Rep k min => rep k min 0 s (fun rest => cont rest g)
  | Grp i r1 =>
      run r1 s g (fun rest g' =>
        cont rest ((i, Str.take (String.length s - String.length rest) s) :: g'))
  | Seq r1 r2 => run r1 s g (fun rest g' => run r2 rest g' cont)
  | Alt r1 r2 =>
      match run r1 s g cont with
      | Some a => Some a
      | None => run r2 s g cont
      end
  end.
End Matcher.

(** A match: its groups and the text after it. *)
Definition match_here (r : regex) (s : string) : option (groups * string) :=
  run r s [] (fun rest g => Some (g, rest)).

(** [re.match(r, s)] *)
Definition is_match (r : regex) (s : string) : bool :=
  match match_here r s with
  | Some _ => true
  | None => false
  end.

(** [re.search(r, s)]: the leftmost match. *)
Fixpoint search (r : regex) (s : string) : option groups :=
  match match_here r s with
  | Some (g, _) => Some g
  | None =>
      match s with
      | EmptyString => None
      | String _ s' => search r s'
      end
  end.

(** [m.groups()] for a pattern with [n] groups. *)
Definition groups_tuple (n : nat) (g : groups) : list (option string) :=
  map (fun i => group i g) (seq 1 n).

(** [re.findall(r, s)]: the groups of the successive non-overlapping
    matches, scanning from the left.  The recursion is on a bound, which
    [findall] takes one larger than the length of the text. *)
Fixpoint findall_aux (n : nat) (r : regex) (s : string) : list groups :=
  match n with
  | O => []
  | S n' =>
      match match_here r s with
      | Some (g, rest) =>
          if Nat.ltb (String.length rest) (String.length s)
          then g :: findall_aux n' r rest
          else g :: match s with
                    | EmptyString => []
                    | String _ s' => findall_aux n' r s'
                    end
      | None =>
          match s with
          | EmptyString => []
          | String _ s' => findall_aux n' r s'
          end
      end
  end.

Definition findall (r : regex) (s : string) : list groups :=
  findall_aux (S (String.length s)) r s.

(** [re.sub(r, repl, s)] for a pattern that matches no empty string. *)
Fixpoint sub_aux (n : nat) (r : regex) (repl s : string) : string :=
  match n with
  | O => s
  | S n' =>
      match s with
      | EmptyString => EmptyString
      | String c s' =>
          match match_here r s with
          | Some (_, rest) =>
              if Nat.ltb (String.length rest) (String.length s)
              then repl ++ sub_aux n' r repl rest
              else String c (sub_aux n' r repl s')
          | None => String c (sub_aux n' r repl s')
          end
      end
  end.

Definition sub (r : regex) (repl s : string) : string :=
  sub_aux (S (String.length s)) r repl s.

End Re.

(** [next(g for g in m.groups() if g)] *)
Fixpoint next_truthy (gs : list (option string)) : res string :=
  match gs with
  | [] => Raise StopIteration
  | Some s :: gs' => if Str.truthy s then Ok s else next_truthy gs'
  | None :: gs' => next_truthy gs'
  end.

(** ** curl_parser.py *)

Module CurlParser.

Definition CookieMap : Type := Dict.t string.
Definition HeaderMap : Type := Dict.t string.

Definition dquote : string := String "034"%char EmptyString.
Definition backslash : string := "\".
Definition newline : string := String "010"%char EmptyString.

(** The pattern [\\\s*\\\n\s*]: a backslash, blanks, a backslash, a
    newline, blanks. *)
Definition re_continuation : Re.regex :=
  Re.cat [Re.Lit backslash; Re.Rep Re.CSpace 0; Re.Lit backslash;
          Re.Lit newline; Re.Rep Re.CSpace 0].

(** The pattern [\s+\\\n]: blanks, a backslash, a newline. *)
Definition re_continuation2 : Re.regex :=
  Re.cat [Re.Rep Re.CSpace 1; Re.Lit backslash; Re.Lit newline].

(** The pattern [curl\s+'([^']+)'|curl\s+D([^D]+)D|curl\s+([^\s]+)],
    where D stands for the double quote. *)
Definition re_url : Re.regex :=
  Re.Alt
    (Re.cat [Re.Lit "curl"; Re.Rep Re.CSpace 1; Re.Lit "'";
             Re.Grp 1 (Re.Rep (Re.CNot "'") 1); Re.Lit "'"])
    (Re.Alt
       (Re.cat [Re.Lit "curl"; Re.Rep Re.CSpace 1; Re.Lit dquote;
                Re.Grp 2 (Re.Rep (Re.CNot "034") 1); Re.Lit dquote])
       (Re.cat [Re.Lit "curl"; Re.Rep Re.CSpace 1;
                Re.Grp 3 (Re.Rep Re.CNotSpace 1)])).

(** The header pattern: [-H\s+'], the group [([^:]+)], [:\s*], a group
    that is any run, possibly empty, of characters other than the single
    quote, and the closing single quote. *)
Definition re_header : Re.regex :=
  Re.cat [Re.Lit "-H"; Re.Rep Re.CSpace 1; Re.Lit "'";
          Re.Grp 1 (Re.Rep (Re.CNot ":") 1); Re.Lit ":";
          Re.Rep Re.CSpace 0; Re.Grp 2 (Re.Rep (Re.CNot "'") 0);
          Re.Lit "'"].

(** The pattern [-b\s+'([^']+)'|-b\s+D([^D]+)D], D the double quote. *)
Definition re_cookie_arg : Re.regex :=
  Re.Alt
    (Re.cat [Re.Lit "-b"; Re.Rep Re.CSpace 1; Re.Lit "'";
             Re.Grp 1 (Re.Rep (Re.CNot "'") 1); Re.Lit "'"])
    (Re.cat [Re.Lit "-b"; Re.Rep Re.CSpace 1; Re.Lit dquote;
             Re.Grp 2 (Re.Rep (Re.CNot "034") 1); Re.Lit dquote]).

(** The text the patterns are matched against: continuations collapsed. *)
Definition normalize (curl_text : string) : string :=
  let text := Re.sub re_continuation " " (Str.strip curl_text) in
  Re.sub re_continuation2 " " text.

(** The [(k, v)] tuples [re.findall] returns for the header pattern. *)
Definition header_tuples (text : string) : list (string * string) :=
  map (fun g => (match Re.group 1 g with Some k => k | None => "" end,
                 match Re.group 2 g with Some v => v | None => "" end))
      (Re.findall re_header text).

(** [for k, v in ...: headers[k.strip().lower()] = v.strip()] *)
Definition parse_headers (text : string) : HeaderMap :=
  fold_left (fun h kv => Dict.set (Str.lower (Str.strip (fst kv)))
                                  (Str.strip (snd kv)) h)
            (header_tuples text) [].

(** The [name, val] pairs of the parts of [raw.split(';')] that contain
    an [=], both stripped, in order. *)
Definition cookie_pairs (raw : string) : list (string * string) :=
  flat_map (fun part =>
              if Str.contains "=" part then
                match Str.split_once "=" part with
                | Some (name, val) => [(Str.strip name, Str.strip val)]
                | None => []
                end
              else [])
           (Str.split ";" raw).

(** The argument of [-b], when the pattern finds one. *)
Definition cookie_arg (text : string) : option (res string) :=
  match Re.search re_cookie_arg text with
  | Some g => Some (next_truthy (Re.groups_tuple 2 g))
  | None => None
  end.

(** The first header whose lower-cased key is [cookie]. *)
Fixpoint cookie_header (headers : HeaderMap) : option string :=
  match headers with
  | [] => None
  | (hk, hv) :: rest =>
      if String.eqb (Str.lower hk) "cookie" then Some hv
      else cookie_header rest
  end.

Section WithUrlparse.
(** [urllib.parse.urlparse], called for its exceptions only. *)
Variable urlparse : string -> res unit.

Definition parse_curl (curl_text : string)
  : res (string * HeaderMap * CookieMap * string) :=
  (let text := normalize curl_text in
   match Re.search re_url text with
   | None => Raise ValueError
   | Some m_url =>
       url <- next_truthy (Re.groups_tuple 3 m_url) ;;
       _ <- urlparse url ;;
       let headers := parse_headers text in
       cookies <-
         match cookie_arg text with
         | Some b =>
             raw <- b ;;
             Ok (fold_left (fun c nv => Dict.set (fst nv) (snd nv) c)
                           (cookie_pairs raw) [])
         | None => Ok []
         end ;;
       let cookies :=
         match cookie_header headers with
         | Some cookie_hdr =>
             if Str.truthy cookie_hdr then
               fold_left (fun c nv => Dict.setdefault (fst nv) (snd nv) c)
                         (cookie_pairs cookie_hdr) cookies
             else cookies
         | None => cookies
         end in
       let user_agent :=
         match Dict.get "user-agent" headers with
         | Some ua => ua
         | None => ""
         end in
       Ok (url, headers, cookies, user_agent)
   end)%py.
End WithUrlparse.

End CurlParser.

(** ** JSON values and the Python operations applied to them *)

#[warnings="-register-all"] Inductive json : Type :=
| JNull
| JBool (b : bool)
| JInt (z : Z)
| JFloat (q : Q)
| JStr (s : string)
| JList (l : list json)
| JDict (d : list (string * json)).

Module Py.

(** [bool(x)] *)
Definition truthy (x : json) : bool :=
  match x with
  | JNull => false
  | JBool b => b
  | JInt z => negb (z =? 0)
  | JFloat q => negb (Qeq_bool q 0)
  | JStr s => Str.truthy s
  | JList l => match l with [] => false | _ => true end
  | JDict d => match d with [] => false | _ => true end
  end.

(** [a or b] *)
Definition or (a b : json) : json := if truthy a then a else b.

Definition is_none (x : json) : bool :=
  match x with JNull => true | _ => false end.

(** The number carried by an [int] or a [float]; [bool] is a subclass of
    [int] in Python, so [isinstance(x, (int, float))] is [number x <> None]. *)
Definition number (x : json) : option Q :=
  match x with
  | JBool b => Some (if b then 1%Q else 0%Q)
  | JInt z => Some (inject_Z z)
  | JFloat q => Some q
  | _ => None
  end.

Definition is_number (x : json) : bool :=
  match number x with Some _ => true | None => false end.

(** [d.get(k)] on a dictionary: [None] for a missing key. *)
Definition dict_get (k : string) (d : list (string * json)) : json :=
  match Dict.get k d with
  | Some v => v
  | None => JNull
  end.

(** [x.get(k)]: only a dictionary has the method. *)
Definition get (x : json) (k : string) : res json :=
  match x with
  | JDict d => Ok (dict_get k d)
  | _ => Raise AttributeError
  end.

(** [a == b] *)
Fixpoint eq (a b : json) {struct a} : bool :=
  match a, b with
  | JNull, JNull => true
  | JStr s, JStr t => String.eqb s t
  | JList l, JList m =>
      (fix eq_list (l m : list json) {struct l} : bool :=
         match l, m with
         | [], [] => true
         | x :: l', y :: m' => eq x y && eq_list l' m'
         | _, _ => false
         end) l m
  | JDict d, JDict e =>
      Nat.eqb (List.length d) (List.length e) &&
      (fix incl (d : list (string * json)) : bool :=
         match d with
         | [] => true
         | (k, v) :: d' =>
             match Dict.get k e with
             | Some w => eq v w
             | None => false
             end && incl d'
         end) d
  | JBool x, _ =>
      match number b with
      | Some q => Qeq_bool (if x then 1 else 0) q
      | None => false
      end
  | JInt x, _ =>
      match number b with
      | Some q => Qeq_bool (inject_Z x) q
      | None => false
      end
  | JFloat x, _ =>
      match number b with
      | Some q => Qeq_bool x q
      | None => false
      end
  | _, _ => false
  end.

(** [a >= b]: numbers by value, strings and lists lexicographically, a
    [TypeError] for every other pair of operands. *)
Fixpoint ge (a b : json) {struct a} : res bool :=
  match a, b with
  | JStr s, JStr t => Ok (String.leb t s)
  | JList l, JList m =>
      (fix ge_list (l m : list json) {struct l} : res bool :=
         match l, m with
         | _, [] => Ok true
         | [], _ :: _ => Ok false
         | x :: l', y :: m' => if eq x y then ge_list l' m' else ge x y
         end) l m
  | (JBool _ | JInt _ | JFloat _), _ =>
      match number a, number b with
      | Some x, Some y => Ok (Qle_bool y x)
      | _, _ => Raise TypeError
      end
  | _, _ => Raise TypeError
  end.

(** [list(x)], the elements an iteration over [x] yields. *)
Definition iterate (x : json) : res (list json) :=
  match x with
  | JList l => Ok l
  | JStr s => Ok (map (fun c => JStr (String c EmptyString)) (list_ascii_of_string s))
  | JDict d => Ok (map (fun kv => JStr (fst kv)) d)
  | _ => Raise TypeError
  end.

(** [len(x)] *)
Definition len (x : json) : res Z :=
  match x with
  | JList l => Ok (Z.of_nat (List.length l))
  | JStr s => Ok (Z.of_nat (String.length s))
  | JDict d => Ok (Z.of_nat (List.length d))
  | _ => Raise TypeError
  end.

(** [str(x).isdigit()]: the text of a non-negative [int] is its decimal
    digits; that of a negative one starts with a minus sign, [str(True)] is
    [True], the text of a float holds a point, an exponent, [inf] or [nan],
    that of [None] is [None] and that of a container starts with a bracket. *)
Definition str_isdigit (x : json) : bool :=
  match x with
  | JStr s => Str.isdigit s
  | JInt z => 0 <=? z
  | _ => false
  end.

(** [int(x)] where [str(x).isdigit()] holds. *)
Definition int (x : json) : Z :=
  match x with
  | JStr s => Str.int s
  | JInt z => z
  | _ => 0
  end.

End Py.

(** ** vinted.py *)

Module VintedClient.

(** The session's cookie jar.  The constructor stores every cookie it is
    given under the one domain [.vinted.fr], so that a lookup by name in
    the jar is a lookup in the given dictionary (the jar only rewrites a
    value that is wrapped in double quotes and holds escaped quotes, which
    is not modelled). *)
Definition cookie_jar : Type := Dict.t string.

Section GetUserId.
(** [jwt.decode(token, options=...)] with the signature check turned
    off; [None] when the import of [jwt] failed. *)
Variable jwt : option (string -> res json).

Definition get_user_id (cookies : cookie_jar) : option Z :=
  let fallback :=
    match Dict.get "access_token_web" cookies, jwt with
    | Some token, Some decode =>
        if Str.truthy token then
          try_except
            (payload <- decode token ;;
             sub <- Py.get payload "sub" ;;
             if Py.truthy sub && Py.str_isdigit sub
             then Ok (Some (Py.int sub))
             else Ok None)%py
            None
        else None
    | _, _ => None
    end in
  match Dict.get "v_uid" cookies with
  | Some v_uid =>
      if Str.truthy v_uid && Str.isdigit v_uid
      then Some (Str.int v_uid)
      else fallback
  | None => fallback
  end.
End GetUserId.

(** One request of the listing endpoint: what [r.raise_for_status()]
    followed by [r.json()] gives for a page number ([user_id], [per_page]
    and [order] are the same for all requests of a run). *)
Definition server : Type := Z -> res json.

(** [wardrobe_items_page]: [(items, pagination)]. *)
Definition wardrobe_items_page (srv : server) (page : Z) : res (json * json) :=
  (data <- srv page ;;
   match data with
   | JDict d =>
       let items :=
         Py.or (Py.or (Py.dict_get "items" d) (Py.dict_get "catalog_items" d))
               (JList []) in
       let pagination := Py.or (Py.dict_get "pagination" d) (JDict []) in
       Ok (items, pagination)
   | _ => Raise AttributeError
   end)%py.

(** [pagination.get('total_pages') if isinstance(pagination, dict) else None] *)
Definition total_pages_of (pagination : json) : json :=
  match pagination with
  | JDict d => Py.dict_get "total_pages" d
  | _ => JNull
  end.

(** [pagination.get('current_page') if isinstance(pagination, dict) else page] *)
Definition current_page_of (pagination : json) (page : Z) : json :=
  match pagination with
  | JDict d => Py.dict_get "current_page" d
  | _ => JInt page
  end.

(** The tests that end one iteration of the loop of [wardrobe_items_all]:
    [Ok true] is [break], [Ok false] goes on to the next page. *)
Definition stop_test (per_page : Z) (max_pages : option Z) (page : Z)
           (items pagination : json) : res bool :=
  (let total_pages := total_pages_of pagination in
   let current_page := current_page_of pagination page in
   if match max_pages with Some m => m <=? page | None => false end
   then Ok true
   else if Py.is_none total_pages then
     if negb (Py.truthy items) then Ok true
     else (n <- Py.len items ;; Ok (n <? per_page))
   else Py.ge current_page total_pages)%py.

(** One iteration: the page is fetched, its items are appended, the
    tests are run.  The result is the items appended and the decision. *)
Definition iteration (srv : server) (per_page : Z) (max_pages : option Z)
           (page : Z) : res (list json * bool) :=
  ('(items, pagination) <- wardrobe_items_page srv page ;;
   new_items <- Py.iterate items ;;
   stop <- stop_test per_page max_pages page items pagination ;;
   Ok (new_items, stop))%py.

(** How a run of the loop ends: with the list, with an exception, or
    still fetching when the bound on the number of iterations is used up. *)
Inductive outcome : Type :=
| Returned (items_all : list json)
| Raised (e : exn)
| Running.

(** The loop of [wardrobe_items_all].  The second component is the list
    of the page numbers requested, in the order of the requests. *)
Fixpoint loop (fuel : nat) (srv : server) (per_page : Z) (max_pages : option Z)
         (page : Z) (items_all : list json) (requested : list Z)
  : outcome * list Z :=
  match fuel with
  | O => (Running, requested)
  | S fuel' =>
      let requested := (requested ++ [page])%list in
      match iteration srv per_page max_pages page with
      | Raise e => (Raised e, requested)
      | Ok (items, true) => (Returned (items_all ++ items)%list, requested)
      | Ok (items, false) =>
          loop fuel' srv per_page max_pages (page + 1)
               (items_all ++ items)%list requested
      end
  end.

Definition wardrobe_items_all (fuel : nat) (srv : server) (per_page : Z)
           (max_pages : option Z) : outcome * list Z :=
  loop fuel srv per_page max_pages 1 [] [].

End VintedClient.

(** ** browser_reposter.py *)

Module BrowserReposter.

(** [for key in ['xxl', 'xl', 'l', 'm', 'original']: ...]: [u] is
    overwritten by the [url] of every format that is a dictionary, until
    one is true. *)
Definition format_keys : list string := ["xxl"; "xl"; "l"; "m"; "original"].

Fixpoint pick_format (keys : list string) (fmts : list (string * json))
         (u : json) : json :=
  match keys with
  | [] => u
  | key :: keys' =>
      match Dict.get key fmts with
      | Some (JDict f) =>
          let u' := Py.dict_get "url" f in
          if Py.truthy u' then u' else pick_format keys' fmts u'
      | _ => pick_format keys' fmts u
      end
  end.

(** The value of [u] at the end of the body of the loop over the photos. *)
Definition photo_url (p : json) : res json :=
  match p with
  | JDict d =>
      let u :=
        Py.or (Py.or (Py.or (Py.or (Py.dict_get "full_size_url" d)
                                   (Py.dict_get "url" d))
                            (Py.dict_get "image_url" d))
                     (Py.dict_get "original_url" d))
              (Py.dict_get "original" d) in
      match Py.truthy u, Py.dict_get "formats" d with
      | false, JDict fmts => Ok (pick_format format_keys fmts u)
      | _, _ => Ok u
      end
  | _ => Raise AttributeError
  end.

Fixpoint photo_urls (photos : list json) : res (list string) :=
  match photos with
  | [] => Ok []
  | p :: rest =>
      (u <- photo_url p ;;
       urls <- photo_urls rest ;;
       match u with
       | JStr url => Ok (url :: urls)
       | _ => Ok urls
       end)%py
  end.

Definition _extract_photo_urls (item : list (string * json)) : res (list string) :=
  match Py.or (Py.or (Py.dict_get "photos" item) (Py.dict_get "item_photos" item))
              (JList []) with
  | JList photos => photo_urls photos
  | _ => Ok []
  end.

Record RepostItemData : Type := {
  item_id : Z;
  title : json;
  description : json;
  price : json;
  currency : json;
  brand : json;
  brand_id : json;
  size_id : json;
  catalog_id : json;
  status_id : json;
  color_ids : json;
  photo_urls_of : list string
}.

Section Collect.
(** [float(s)] and [int(s)] on a string: [None] when they raise
    [ValueError]. *)
Variable float_of_str : string -> option Q.
Variable int_of_str : string -> option Z.

(** [int(x)]: a float is truncated toward zero. *)
Definition int_of (x : json) : res Z :=
  match x with
  | JInt z => Ok z
  | JBool b => Ok (if b then 1 else 0)
  | JFloat q => Ok (if Qle_bool 0 q then Qfloor q else Qceiling q)
  | JStr s =>
      match int_of_str s with
      | Some z => Ok z
      | None => Raise ValueError
      end
  | _ => Raise TypeError
  end.

(** The local [amount] of [collect_item_data] when the record is built. *)
Definition amount_of (src : list (string * json)) : json :=
  let amount := Py.dict_get "price_numeric" src in
  let p := Py.dict_get "price" src in
  let amount :=
    if Py.is_none amount then
      match p with
      | JDict pd => Py.dict_get "amount" pd
      | _ => if Py.is_number p then p else amount
      end
    else amount in
  match amount with
  | JStr s =>
      match float_of_str (Str.replace "," "." s) with
      | Some q => JFloat q
      | None => JNull
      end
  | _ => amount
  end.

(** The local [currency] of [collect_item_data]. *)
Definition currency_of (src : list (string * json)) : json :=
  let currency := Py.or (Py.dict_get "price_currency" src) (Py.dict_get "currency" src) in
  if Py.is_none (Py.dict_get "price_numeric" src) then
    match Py.dict_get "price" src with
    | JDict pd => Py.or currency (Py.dict_get "currency_code" pd)
    | _ => currency
    end
  else currency.

Definition collect_item_data (base_item : list (string * json))
           (detailed_item : option (list (string * json))) : res RepostItemData :=
  (let src := Dict.update base_item
                (match detailed_item with Some d => d | None => [] end) in
   let amount := amount_of src in
   id <- int_of (Py.dict_get "id" src) ;;
   urls <- _extract_photo_urls src ;;
   Ok {| item_id := id;
         title := Py.or (Py.dict_get "title" src) (JStr "");
         description := Py.or (Py.dict_get "description" src) (JStr "");
         price := if Py.is_number amount then amount else JNull;
         currency := currency_of src;
         brand := Py.or (Py.dict_get "brand_title" src) (Py.dict_get "brand" src);
         brand_id := Py.dict_get "brand_id" src;
         size_id := Py.dict_get "size_id" src;
         catalog_id := Py.dict_get "catalog_id" src;
         status_id := Py.dict_get "status_id" src;
         color_ids := Py.or (Py.dict_get "color_ids" src) (JList []);
         photo_urls_of := urls |})%py.

End Collect.

End BrowserReposter.

(** ** Aware datetimes in UTC

    An instant is its number of microseconds since the epoch.  The bounds
    are [datetime.min] (year 1) and [datetime.max] (end of year 9999). *)

Module Datetime.

Definition t : Type := Z.

Definition min_us : Z := -62135596800000000.
Definition max_us : Z := 253402300799999999.

Definition in_range (u : Z) : bool := (min_us <=? u) && (u <=? max_us).

(** Rounding to the nearest integer, ties to even. *)
Definition round_half_even (q : Q) : Z :=
  let f := Qfloor q in
  match Qcompare (q - inject_Z f) (1 # 2) with
  | Lt => f
  | Gt => f + 1
  | Eq => if Z.even f then f else f + 1
  end.

(** [datetime.fromtimestamp(sec, tz=timezone.utc)]: [None] when it raises
    because the instant is out of range. *)
Definition fromtimestamp (sec : Q) : option t :=
  let u := round_half_even (sec * inject_Z 1000000) in
  if in_range u then Some u else None.

(** What [datetime.fromisoformat] reads: the wall-clock reading counted
    in microseconds as if it were UTC, and the UTC offset when the text
    has one, in microseconds. *)
Record parsed : Type := { wall : Z; utcoffset : option Z }.

(** [dt.replace(tzinfo=timezone.utc)] for a naive [dt], then
    [dt.astimezone(timezone.utc)]: [None] when the subtraction of the
    offset leaves the range ([OverflowError]). *)
Definition to_utc (p : parsed) : option t :=
  match utcoffset p with
  | None => Some (wall p)
  | Some off =>
      let u := wall p - off in
      if in_range u then Some u else None
  end.

End Datetime.

(** ** cli.py *)

Module Cli.

Section CreatedAt.
(** [datetime.fromisoformat]: [None] when it raises. *)
Variable fromisoformat : string -> option Datetime.parsed.

(** The first branch: [created_at_ts], seconds or milliseconds. *)
Definition from_created_at_ts (ts : json) : option Datetime.t :=
  match Py.number ts with
  | Some t =>
      let sec := if Qle_bool t (inject_Z 10000000000) then t
                 else (t / inject_Z 1000)%Q in
      Datetime.fromtimestamp sec
  | None => None
  end.

(** The second branch: an ISO string. *)
Definition from_created_at (created_at : json) : option Datetime.t :=
  match created_at with
  | JStr c =>
      if Str.truthy c then
        let s := Str.strip c in
        let s := if Str.endswith "Z" s then Str.replace "Z" "+00:00" s else s in
        match fromisoformat s with
        | Some dt => Datetime.to_utc dt
        | None => None
        end
      else None
  | _ => None
  end.

(** The third branch: the smallest [high_resolution.timestamp] of the
    photos that are dictionaries. *)
Fixpoint best_timestamp (photos : list json) (best_ts : option Q)
  : res (option Q) :=
  match photos with
  | [] => Ok best_ts
  | JDict p :: rest =>
      (let hr := Py.or (Py.dict_get "high_resolution" p) (JDict []) in
       pts <- Py.get hr "timestamp" ;;
       match Py.number pts with
       | Some x =>
           match best_ts with
           | None => best_timestamp rest (Some x)
           | Some b =>
               if Qle_bool b x then best_timestamp rest best_ts
               else best_timestamp rest (Some x)
           end
       | None => best_timestamp rest best_ts
       end)%py
  | _ :: rest => best_timestamp rest best_ts
  end.

Definition from_photos (photos : json) : res (option Datetime.t) :=
  match photos with
  | JList (p :: ps) =>
      (best_ts <- best_timestamp (p :: ps) None ;;
       match best_ts with
       | Some x => Ok (Datetime.fromtimestamp x)
       | None => Ok None
       end)%py
  | _ => Ok None
  end.

Definition _parse_created_at (item : json) : res (option Datetime.t) :=
  match item with
  | JDict d =>
      match from_created_at_ts (Py.dict_get "created_at_ts" d) with
      | Some dt => Ok (Some dt)
      | None =>
          (created_at <-
             (let c := Py.dict_get "created_at" d in
              if Py.truthy c then Ok c
              else Py.get (Py.or (Py.dict_get "item" d) (JDict [])) "created_at") ;;
           match from_created_at created_at with
           | Some dt => Ok (Some dt)
           | None => from_photos (Py.dict_get "photos" d)
           end)%py
      end
  | _ => Raise AttributeError
  end.

(** [(0, dt) if dt else (1, datetime.max.replace(tzinfo=timezone.utc))] *)
Definition _sort_key (x : json) : res (Z * Datetime.t) :=
  (dt <- _parse_created_at x ;;
   match dt with
   | Some d => Ok (0, d)
   | None => Ok (1, Datetime.max_us)
   end)%py.

(** [a < b] on the key tuples. *)
Definition key_lt (a b : Z * Datetime.t) : bool :=
  (fst a <? fst b) || ((fst a =? fst b) && (snd a <? snd b)).

(** [list.sort(key=...)] is a stable sort that compares the keys with
    [<] only: an element goes after the elements of smaller key and
    before the others, the earlier elements of the input first. *)
Fixpoint insert_keyed {A : Type} (x : (Z * Datetime.t) * A)
         (l : list ((Z * Datetime.t) * A)) : list ((Z * Datetime.t) * A) :=
  match l with
  | [] => [x]
  | y :: l' =>
      if key_lt (fst x) (fst y) then x :: l
      else y :: insert_keyed x l'
  end.

Definition sort_keyed {A : Type} (l : list ((Z * Datetime.t) * A))
  : list ((Z * Datetime.t) * A) :=
  fold_left (fun acc x => insert_keyed x acc) l [].

Fixpoint keyed (items : list json) : res (list ((Z * Datetime.t) * json)) :=
  match items with
  | [] => Ok []
  | x :: rest =>
      (k <- _sort_key x ;;
       ks <- keyed rest ;;
       Ok ((k, x) :: ks))%py
  end.

(** [enriched.sort(key=_sort_key)] *)
Definition sort_by_created (enriched : list json) : res (list json) :=
  (ks <- keyed enriched ;; Ok (map snd (sort_keyed ks)))%py.
End CreatedAt.

(** [next((v.get('url') for k, v in formats.items()
          if isinstance(v, dict) and v.get('url')), None)] *)
Fixpoint first_format_url (formats : list (string * json)) : json :=
  match formats with
  | [] => JNull
  | (_, JDict v) :: rest =>
      if Py.truthy (Py.dict_get "url" v) then Py.dict_get "url" v
      else first_format_url rest
  | _ :: rest => first_format_url rest
  end.

(** [_extract_url], local to [main]. *)
Definition _extract_url (p : json) : json :=
  match p with
  | JDict d =>
      Py.or (Py.or (Py.or (Py.dict_get "full_size_url" d) (Py.dict_get "url" d))
                   (Py.dict_get "image_url" d))
            (match Py.dict_get "formats" d with
             | JDict formats => first_format_url formats
             | _ => JBool false
             end)
  | _ => JNull
  end.

Section Price.
Variable float_of_str : string -> option Q.

(** [float(amount)]: [None] when it raises. *)
Definition float_of (amount : json) : option Q :=
  match amount with
  | JStr s => float_of_str s
  | _ => Py.number amount
  end.

(** [price_val], as [main] normalizes it from [src]. *)
Definition price_val (src : list (string * json)) : json :=
  let price_numeric := Py.dict_get "price_numeric" src in
  if Py.is_none price_numeric then
    match Py.dict_get "price" src with
    | JDict p =>
        let amount := Py.dict_get "amount" p in
        if Py.is_none amount then JNull
        else match float_of amount with
             | Some q => JFloat q
             | None => JNull
             end
    | p => if Py.is_number p then p else JNull
    end
  else price_numeric.

(** The [price] entry of the creation payload: [price_val or 0]. *)
Definition payload_price (src : list (string * json)) : json :=
  Py.or (price_val src) (JInt 0).
End Price.

(** *** [main]

    The run is a function of what the outside world answers: the text
    read, the libraries, the listing server, the operator's inputs and
    the results of the best-effort steps.  The parsing, the identity
    resolution, the listing loop and the sort are the functions above. *)

Inductive outcome : Type :=
| Exit (code : Z)          (* [sys.exit(code)] *)
| Return                   (* the end of [main], or a [return] *)
| Uncaught (e : exn)       (* an exception that leaves [main] *)
| Hangs.                   (* the listing loop is still running *)

(** The exit status of the process: an uncaught exception ends the
    interpreter with status 1. *)
Definition exit_status (o : outcome) : option Z :=
  match o with
  | Exit code => Some code
  | Return => Some 0
  | Uncaught _ => Some 1
  | Hangs => None
  end.

Record world : Type := {
  curl_text : string;                       (* the file or standard input *)
  urlparse : string -> res unit;
  jwt : option (string -> res json);
  fromisoformat : string -> option Datetime.parsed;
  login_browser : option (res (Dict.t string));
    (* [--login-browser]: what [login_and_get_cookies] does *)
  per_page : Z;
  srv : VintedClient.server;
  fuel : nat;
  enrich : json -> res json;
    (* an item after the enrichment pass; the requests are guarded *)
  selection : option Z;
    (* the item number typed; [None] for a blank or an invalid input *)
  confirm : bool;                           (* [prompt_yes_no] *)
  browser : option (res bool);
    (* [--browser]: the truth of [res.get('ok')], or the exception *)
  csrf : option string;                     (* [extract_csrf] at the gate *)
  prepare : res unit;
    (* editor details, photos, prompts and deletion before the creation *)
  create_item : res json
}.

Fixpoint enrich_all (f : json -> res json) (items : list json) : res (list json) :=
  match items with
  | [] => Ok []
  | it :: rest =>
      (it' <- f it ;; rest' <- enrich_all f rest ;; Ok (it' :: rest'))%py
  end.

Definition main (w : world) : outcome :=
  match CurlParser.parse_curl (urlparse w) (curl_text w) with
  | Raise e => Uncaught e
  | Ok (_, _, cookies, _) =>
      let cookies :=
        match login_browser w with
        | Some (Ok b_cookies) => Dict.update cookies b_cookies
        | _ => cookies
        end in
      match VintedClient.get_user_id (jwt w) cookies with
      | None => Exit 1
      | Some user_id =>
          if user_id =? 0 then Exit 1 else
          match VintedClient.wardrobe_items_all (fuel w) (srv w) (per_page w) None with
          | (VintedClient.Running, _) => Hangs
          | (VintedClient.Raised e, _) => Uncaught e
          | (VintedClient.Returned [], _) => Exit 0
          | (VintedClient.Returned items, _) =>
              match (enriched <- enrich_all (enrich w) items ;;
                     sort_by_created (fromisoformat w) enriched)%py with
              | Raise e => Uncaught e
              | Ok enriched =>
                  match selection w with
                  | None => Return
                  | Some idx =>
                      if negb ((1 <=? idx) && (idx <=? Z.of_nat (List.length enriched)))
                      then Return
                      else if negb (confirm w) then Return
                      else
                        match browser w with
                        | Some (Ok true) => Return
                        | _ =>
                            match csrf w with
                            | None => Exit 1
                            | Some token =>
                                if negb (Str.truthy token) then Exit 1 else
                                match prepare w with
                                | Raise e => Uncaught e
                                | Ok _ =>
                                    match create_item w with
                                    | Raise _ => Exit 2
                                    | Ok _ => Return
                                    end
                                end
                            end
                        end
                  end
              end
          end
      end
  end.

End Cli.

(** ** browser_login.py *)

Module BrowserLogin.

(** An entry of [driver.get_cookies()]: [c.get('name')], [c.get('value')]. *)
Record cookie_entry : Type := { name : option string; value : option string }.

(** What the driver shows when it is looked at: [current_url] and
    [get_cookies()], either of which may raise. *)
Record observation : Type := {
  current_url : res string;
  get_cookies : res (list cookie_entry)
}.

Definition _collect_cookie_dict (driver_obj : observation) : Dict.t string :=
  let cookies := try_except (get_cookies driver_obj) [] in
  fold_left
    (fun out c =>
       match name c, value c with
       | Some n, Some v => if Str.truthy n then Dict.set n v out else out
       | _, _ => out
       end)
    cookies [].

(** The pattern [^https://www\.vinted\.fr/member/\d+]. *)
Definition re_profile : Re.regex :=
  Re.cat [Re.Lit "https://www.vinted.fr/member/"; Re.Rep Re.CDigit 1].

Definition logged_in (cookies : Dict.t string) : bool :=
  Dict.mem "v_uid" cookies || Dict.mem "access_token_web" cookies.

(** The guarded body of the loop: [Some cookies] when it returns. *)
Definition poll (driver_obj : observation) : option (Dict.t string) :=
  try_except
    (cur <- current_url driver_obj ;;
     let cookies := _collect_cookie_dict driver_obj in
     let on_profile := Re.is_match re_profile cur in
     if logged_in cookies && on_profile then Ok (Some cookies) else Ok None)%py
    None.

Inductive outcome : Type :=
| Returned (cookies : Dict.t string)
| Running.

(** The loop.  [clock i] is the reading of [time.time()] in iteration [i]
    and [driver i] is the browser as iteration [i] finds it; [clock 0] is
    the reading taken before the loop. *)
Fixpoint wait_loop (fuel : nat) (clock : nat -> Q) (driver : nat -> observation)
         (deadline : option Q) (i : nat) : outcome :=
  match fuel with
  | O => Running
  | S fuel' =>
      if match deadline with
         | Some e => Qle_bool e (clock i)
         | None => false
         end
      then Returned (_collect_cookie_dict (driver i))
      else
        match poll (driver i) with
        | Some cookies => Returned cookies
        | None => wait_loop fuel' clock driver deadline (S i)
        end
  end.

Definition _wait_for_login_and_cookies (fuel : nat) (clock : nat -> Q)
           (driver : nat -> observation) (timeout : Z) : outcome :=
  let infinite := timeout <=? 0 in
  let deadline :=
    if infinite then None else Some (clock O + inject_Z timeout)%Q in
  wait_loop fuel clock driver deadline 1.

End BrowserLogin.

(** * The vocabulary of the statements

    The notions the statements below are written with, which follow the
    words of the specification rather than the shape of the code, the
    sample inputs, and the auxiliary notions of the proofs. *)

Module Spec.

Import CurlParser.

(** The value the last pair named [n] gives. *)
Fixpoint last_value (n : string) (pairs : list (string * string)) : option string :=
  match pairs with
  | [] => None
  | (k, v) :: rest =>
      match last_value n rest with
      | Some w => Some w
      | None => if String.eqb n k then Some v else None
      end
  end.

(** The value the [-b] argument gives to a cookie name: that of the last
    pair of the argument with this name. *)
Definition b_value (curl_text name : string) : option string :=
  match cookie_arg (normalize curl_text) with
  | Some (Ok raw) => last_value name (cookie_pairs raw)
  | _ => None
  end.

(** The value the [Cookie:] header gives to a cookie name: that of the
    first pair of the header with this name. *)
Definition header_value (curl_text name : string) : option string :=
  match cookie_header (parse_headers (normalize curl_text)) with
  | Some cookie_hdr => Dict.get name (cookie_pairs cookie_hdr)
  | None => None
  end.

(** *** Identity resolution *)

(** The user id the [v_uid] session cookie gives: its integer value when
    the cookie's value is a string of digits. *)
Definition session_cookie_id (cookies : Dict.t string) : option Z :=
  match Dict.get "v_uid" cookies with
  | Some v => if Str.isdigit v then Some (Str.int v) else None
  | None => None
  end.

(** The [sub] claim read from the [access_token_web] token, decoded
    without verification: none when there is no token, when the decoding
    library is missing or when the token does not decode to an object. *)
Definition token_subject (jwt : option (string -> res json))
           (cookies : Dict.t string) : option json :=
  match Dict.get "access_token_web" cookies, jwt with
  | Some token, Some decode =>
      match token, decode token with
      | String _ _, Ok (JDict payload) => Some (Py.dict_get "sub" payload)
      | _, _ => None
      end
  | _, _ => None
  end.

(** A numeric claim and the integer it denotes: a non-empty string of
    digits, or a positive integer. *)
Definition numeric_id (sub : json) : option Z :=
  match sub with
  | JStr s => if Str.isdigit s then Some (Str.int s) else None
  | JInt z => if 0 <? z then Some z else None
  | _ => None
  end.

Definition resolve_identity (jwt : option (string -> res json))
           (cookies : Dict.t string) : option Z :=
  match session_cookie_id cookies with
  | Some id => Some id
  | None =>
      match token_subject jwt cookies with
      | Some sub => numeric_id sub
      | None => None
      end
  end.

(** A curl text whose two cookie sources overlap on the name [a]. *)
Definition sample_text : string :=
  "curl 'https://x/' -H 'Cookie: a=header; c=3' -b 'a=jar; b=2'".

(** The curl text of the end-to-end scenario. *)
Definition scenario_text : string :=
  "curl 'https://x/items/new' -H 'cookie: v_uid=42' -b 'v_uid=42; access_token_web=abc'".

Definition scenario_cookies : Dict.t string :=
  [("v_uid", "42"); ("access_token_web", "abc")].

(** *** The listing loop *)

(** The page numbers 1 to [n]. *)
Definition pages (n : nat) : list Z := map Z.of_nat (seq 1 n).

(** The items of a page, as they are appended to the result. *)
Definition page_new_items (srv : VintedClient.server) (page : Z) : list json :=
  match VintedClient.wardrobe_items_page srv page with
  | Ok (items, _) =>
      match Py.iterate items with
      | Ok new_items => new_items
      | Raise _ => []
      end
  | Raise _ => []
  end.

(** The items of the pages 1 to [n], in page order. *)
Definition items_upto (srv : VintedClient.server) (n : nat) : list json :=
  flat_map (page_new_items srv) (pages n).

(** A supplied cap is reached. *)
Definition cap_reached (max_pages : option Z) (page : Z) : Prop :=
  exists m, max_pages = Some m /\ m <= page.

(** A total-page count is reported, and the reported current page has
    reached or exceeded it. *)
Definition total_reached (page : Z) (pagination : json) : Prop :=
  VintedClient.total_pages_of pagination <> JNull /\
  Py.ge (VintedClient.current_page_of pagination page)
        (VintedClient.total_pages_of pagination) = Ok true.

(** No total-page count is reported, and the page holds no items or
    fewer items than [per_page]. *)
Definition short_page (per_page : Z) (items pagination : json) : Prop :=
  VintedClient.total_pages_of pagination = JNull /\
  (Py.truthy items = false \/ exists n, Py.len items = Ok n /\ n < per_page).

Definition stops (per_page : Z) (max_pages : option Z) (page : Z)
           (items pagination : json) : Prop :=
  cap_reached max_pages page \/
  total_reached page pagination \/
  short_page per_page items pagination.

(** The loop stops at this page. *)
Definition stops_at (srv : VintedClient.server) (per_page : Z)
           (max_pages : option Z) (page : Z) : Prop :=
  exists items pagination,
    VintedClient.wardrobe_items_page srv page = Ok (items, pagination) /\
    stops per_page max_pages page items pagination.

(** The page is fetched, its items are appended and the tests are made
    without an exception. *)
Definition completes (srv : VintedClient.server) (per_page : Z)
           (max_pages : option Z) (page : Z) : Prop :=
  exists r, VintedClient.iteration srv per_page max_pages page = Ok r.

(** The page numbers [page], [page + 1], ... : [n] of them. *)
Fixpoint range (page : Z) (n : nat) : list Z :=
  match n with
  | O => []
  | S n' => page :: range (page + 1) n'
  end.

(** The iterations that go on to the next page. *)
Definition goes_on (srv : VintedClient.server) (per_page : Z)
           (max_pages : option Z) (page : Z) (n : nat) : Prop :=
  forall i : nat, (i < n)%nat ->
    exists new_items,
      VintedClient.iteration srv per_page max_pages (page + Z.of_nat i) = Ok (new_items, false).

(** A server whose pages hold one item each and no pagination. *)
Definition one_item_server : VintedClient.server :=
  fun page => Ok (JDict [("items", JList [JInt page])]).

(** A server whose pagination reports [total_pages] only. *)
Definition total_only_server : VintedClient.server :=
  fun page => Ok (JDict [("items", JList [JInt page]);
                         ("pagination", JDict [("total_pages", JInt 3)])]).

(** *** Creation dates *)

(** An item whose only date is a [created_at_ts] timestamp. *)
Definition item_with_ts (ts : Z) : json := JDict [("created_at_ts", JInt ts)].

(** An item [d] whose [created_at] field is the text [s]. *)
Definition item_created_at (d : list (string * json)) (s : string) : json :=
  JDict (Dict.set "created_at" (JStr s) d).

(** A reader of ISO texts that knows one text only. *)
Definition sample_fromisoformat (s : string) : option Datetime.parsed :=
  if String.eqb s "2024-01-01T00:00:00+00:00"
  then Some {| Datetime.wall := 1704067200000000; Datetime.utcoffset := Some 0 |}
  else None.

(** *** The order of the listing *)

(** The creation date of a listing, when it is known. *)
Definition created (fromisoformat : string -> option Datetime.parsed) (x : json)
  : option Datetime.t :=
  match Cli._parse_created_at fromisoformat x with
  | Ok (Some d) => Some d
  | _ => None
  end.

Definition dated (fromisoformat : string -> option Datetime.parsed) (x : json) : bool :=
  match created fromisoformat x with
  | Some _ => true
  | None => false
  end.

Definition undated (fromisoformat : string -> option Datetime.parsed) (x : json) : bool :=
  negb (dated fromisoformat x).

(** Both listings have a known date and the first is not the younger. *)
Definition not_after (fromisoformat : string -> option Datetime.parsed)
           (a b : json) : Prop :=
  match created fromisoformat a, created fromisoformat b with
  | Some x, Some y => x <= y
  | _, _ => False
  end.

(** A listing with its sort key. *)
Definition keyed_item : Type := ((Z * Datetime.t) * json)%type.

Definition known_key (kx : keyed_item) : Prop := fst (fst kx) = 0.
Definition unknown_key (kx : keyed_item) : Prop := fst kx = (1, Datetime.max_us).
Definition known_keyb (kx : keyed_item) : bool := fst (fst kx) =? 0.

(** The order of the keys: [a] does not come after [b]. *)
Definition key_le (a b : keyed_item) : Prop := Cli.key_lt (fst b) (fst a) = false.

(** The key of a listing, against its creation date. *)
Definition key_of (fromisoformat : string -> option Datetime.parsed)
           (kx : keyed_item) : Prop :=
  Cli._sort_key fromisoformat (snd kx) = Ok (fst kx).

(** Three listings: no date, 2024-01-01 and 2023-06-01 (midnight UTC). *)
Definition listing_unknown : json := JDict [("id", JInt 1)].
Definition listing_2024_01_01 : json :=
  JDict [("id", JInt 2); ("created_at_ts", JInt 1704067200)].
Definition listing_2023_06_01 : json :=
  JDict [("id", JInt 3); ("created_at_ts", JInt 1685577600)].

(** *** The login wait *)

(** Both conditions of a completed login hold on what the browser shows:
    a [v_uid] or [access_token_web] cookie is present, and the current url
    matches the pattern of a numeric member profile. *)
Definition login_complete (o : BrowserLogin.observation) : Prop :=
  exists cur,
    BrowserLogin.current_url o = Ok cur /\
    BrowserLogin.logged_in (BrowserLogin._collect_cookie_dict o) = true /\
    Re.is_match BrowserLogin.re_profile cur = true.

(** The url of a numeric member profile: the prefix, then a digit. *)
Definition profile_url (cur : string) : Prop :=
  exists (c : ascii) (rest : string),
    cur = "https://www.vinted.fr/member/" ++ String c rest /\
    Str.isdigit_char c = true.

(** A clock that advances by one second from one reading to the next. *)
Definition ticking_clock (i : nat) : Q := inject_Z (Z.of_nat i).

Definition uid_cookie : BrowserLogin.cookie_entry :=
  {| BrowserLogin.name := Some "v_uid"; BrowserLogin.value := Some "42" |}.

(** A browser that shows no cookie. *)
Definition blank_browser (i : nat) : BrowserLogin.observation :=
  {| BrowserLogin.current_url := Ok "https://www.vinted.fr/member/signup/select_type";
     BrowserLogin.get_cookies := Ok [] |}.

(** A browser that holds the login cookie and stays on the home page. *)
Definition home_browser (i : nat) : BrowserLogin.observation :=
  {| BrowserLogin.current_url := Ok "https://www.vinted.fr/";
     BrowserLogin.get_cookies := Ok [uid_cookie] |}.

(** A browser that holds the login cookie and shows the member profile. *)
Definition profile_browser (i : nat) : BrowserLogin.observation :=
  {| BrowserLogin.current_url := Ok "https://www.vinted.fr/member/42";
     BrowserLogin.get_cookies := Ok [uid_cookie] |}.

(** *** Photo urls *)

Definition top_fields : list string :=
  ["full_size_url"; "url"; "image_url"; "original_url"; "original"].

Definition sub_formats : list string := ["xxl"; "xl"; "l"; "m"; "original"].

(** The value of the first of the fields that is present in the entry. *)
Fixpoint first_present (fields : list string) (p : list (string * json))
  : option json :=
  match fields with
  | [] => None
  | f :: fs =>
      if Py.truthy (Py.dict_get f p) then Some (Py.dict_get f p)
      else first_present fs p
  end.

(** The [url] of the first of the sub-formats that is available. *)
Fixpoint first_available (keys : list string) (formats : list (string * json))
  : option json :=
  match keys with
  | [] => None
  | k :: ks =>
      match Dict.get k formats with
      | Some (JDict f) =>
          if Py.truthy (Py.dict_get "url" f) then Some (Py.dict_get "url" f)
          else first_available ks formats
      | _ => first_available ks formats
      end
  end.

(** The photo url of an entry: the top-level fields in their priority
    order, and the sub-formats in theirs only when no field is present and
    the entry has a [formats] map. *)
Definition resolved_url (p : list (string * json)) : option json :=
  match first_present top_fields p with
  | Some u => Some u
  | None =>
      match Py.dict_get "formats" p with
      | JDict formats => first_available sub_formats formats
      | _ => None
      end
  end.

(** The entry of the specification's example. *)
Definition formats_entry : list (string * json) :=
  [("formats", JDict [("l", JDict [("url", JStr "L.jpg")]);
                      ("original", JDict [("url", JStr "O.jpg")])])].

(** The same entry with the two formats in the other order. *)
Definition formats_entry_reversed : list (string * json) :=
  [("formats", JDict [("original", JDict [("url", JStr "O.jpg")]);
                      ("l", JDict [("url", JStr "L.jpg")])])].

(** An entry whose only url is under [original_url]. *)
Definition original_url_entry : list (string * json) :=
  [("original_url", JStr "X.jpg")].

(** *** Prices *)

(** The amount of the price of [src] is the string [s]: it is the
    [price_numeric] field, or, without such a field, the [amount] of the
    [price] object. *)
Definition string_amount (src : list (string * json)) (s : string) : Prop :=
  Py.dict_get "price_numeric" src = JStr s \/
  (Py.dict_get "price_numeric" src = JNull /\
   exists price, Py.dict_get "price" src = JDict price /\
                 Py.dict_get "amount" price = JStr s).

(** A listing whose price amount is written with a comma. *)
Definition comma_src : list (string * json) :=
  [("id", JInt 7); ("price", JDict [("amount", JStr "12,50")])].

(** A reader of plain decimal numbers, digits with an optional point and
    more digits, that rejects every other text. *)
Definition decimal_reader (s : string) : option Q :=
  match Str.split_once "." s with
  | None => if Str.isdigit s then Some (inject_Z (Str.int s)) else None
  | Some (a, b) =>
      if Str.isdigit a && Str.isdigit b
      then Some (Qred (Qmake (Str.int (a ++ b))
                             (Pos.pow 10 (Pos.of_nat (String.length b)))))
      else None
  end.

(** *** Exit codes *)

(** A curl text whose [v_uid] cookie is the digit zero. *)
Definition zero_id_text : string := "curl 'https://www.vinted.fr/' -b 'v_uid=0'".

(** The cookies the operator's session ends up with: those of the curl
    text, overwritten by those of the browser login when it succeeds. *)
Definition session_cookies (w : Cli.world) : option (Dict.t string) :=
  match CurlParser.parse_curl (Cli.urlparse w) (Cli.curl_text w) with
  | Ok (_, _, cookies, _) =>
      Some (match Cli.login_browser w with
            | Some (Ok b_cookies) => Dict.update cookies b_cookies
            | _ => cookies
            end)
  | Raise _ => None
  end.

(** A server with one page that holds one listing. *)
Definition listing_server : VintedClient.server :=
  fun page => Ok (JDict [("items", JList [listing_2024_01_01])]).

(** A world in which every step after the identity resolution succeeds. *)
Definition zero_id_world : Cli.world :=
  {| Cli.curl_text := zero_id_text;
     Cli.urlparse := fun _ => Ok tt;
     Cli.jwt := None;
     Cli.fromisoformat := fun _ => None;
     Cli.login_browser := None;
     Cli.per_page := 20;
     Cli.srv := listing_server;
     Cli.fuel := 5;
     Cli.enrich := fun it => Ok it;
     Cli.selection := Some 1;
     Cli.confirm := true;
     Cli.browser := None;
     Cli.csrf := Some "0f0f0f0f-0f0f-0f0f-0f0f-0f0f0f0f0f0f";
     Cli.prepare := Ok tt;
     Cli.create_item := Ok (JDict []) |}.

(** The same world with the session cookie [v_uid=42]. *)
Definition nonzero_id_world : Cli.world :=
  {| Cli.curl_text := "curl 'https://www.vinted.fr/' -b 'v_uid=42'";
     Cli.urlparse := Cli.urlparse zero_id_world;
     Cli.jwt := Cli.jwt zero_id_world;
     Cli.fromisoformat := Cli.fromisoformat zero_id_world;
     Cli.login_browser := Cli.login_browser zero_id_world;
     Cli.per_page := Cli.per_page zero_id_world;
     Cli.srv := Cli.srv zero_id_world;
     Cli.fuel := Cli.fuel zero_id_world;
     Cli.enrich := Cli.enrich zero_id_world;
     Cli.selection := Cli.selection zero_id_world;
     Cli.confirm := Cli.confirm zero_id_world;
     Cli.browser := Cli.browser zero_id_world;
     Cli.csrf := Cli.csrf zero_id_world;
     Cli.prepare := Cli.prepare zero_id_world;
     Cli.create_item := Cli.create_item zero_id_world |}.

End Spec.

(** * Properties *)

(** ** Dictionaries *)

Module DictFacts.

Lemma get_set_same {V : Type} (k : string) (v : V) (d : Dict.t V) :
  Dict.get k (Dict.set k v d) = Some v.
Proof.
  induction d as [|[k' v'] d IH]; simpl.
  - now rewrite String.eqb_refl.
  - destruct (String.eqb k k') eqn:E; simpl; rewrite E; auto.
Qed.

Lemma get_set_other {V : Type} (k n : string) (v : V) (d : Dict.t V) :
  n <> k -> Dict.get n (Dict.set k v d) = Dict.get n d.
Proof.
  intros Hne. induction d as [|[k' v'] d IH]; simpl.
  - destruct (String.eqb n k) eqn:E; auto.
    apply String.eqb_eq in E. contradiction.
  - destruct (String.eqb k k') eqn:E; simpl.
    + apply String.eqb_eq in E. subst k'.
      destruct (String.eqb n k) eqn:E'; auto.
      apply String.eqb_eq in E'. contradiction.
    + rewrite IH. reflexivity.
Qed.

Lemma get_set {V : Type} (k n : string) (v : V) (d : Dict.t V) :
  Dict.get n (Dict.set k v d) = if String.eqb n k then Some v else Dict.get n d.
Proof.
  destruct (String.eqb n k) eqn:E.
  - apply String.eqb_eq in E. subst. apply get_set_same.
  - apply get_set_other. intros ->. rewrite String.eqb_refl in E. discriminate.
Qed.

Lemma get_setdefault {V : Type} (k n : string) (v : V) (d : Dict.t V) :
  Dict.get n (Dict.setdefault k v d) =
  match Dict.get n d with
  | Some w => Some w
  | None => if String.eqb n k then Some v else None
  end.
Proof.
  unfold Dict.setdefault, Dict.mem.
  destruct (Dict.get k d) eqn:Ek.
  - destruct (Dict.get n d) eqn:En; auto.
    destruct (String.eqb n k) eqn:E; auto.
    apply String.eqb_eq in E. subst. congruence.
  - rewrite get_set. destruct (String.eqb n k) eqn:E.
    + apply String.eqb_eq in E. subst. now rewrite Ek.
    + now destruct (Dict.get n d).
Qed.

Lemma get_fold_set (n : string) (pairs : list (string * string)) :
  forall d : Dict.t string,
    Dict.get n (fold_left (fun c nv => Dict.set (fst nv) (snd nv) c) pairs d) =
    match Spec.last_value n pairs with
    | Some v => Some v
    | None => Dict.get n d
    end.
Proof.
  induction pairs as [|[k v] rest IH]; intros d; simpl; auto.
  rewrite IH. destruct (Spec.last_value n rest); auto.
  rewrite get_set. now destruct (String.eqb n k).
Qed.

Lemma get_fold_setdefault (n : string) (pairs : list (string * string)) :
  forall d : Dict.t string,
    Dict.get n (fold_left (fun c nv => Dict.setdefault (fst nv) (snd nv) c) pairs d) =
    match Dict.get n d with
    | Some v => Some v
    | None => Dict.get n pairs
    end.
Proof.
  induction pairs as [|[k v] rest IH]; intros d; simpl.
  - now destruct (Dict.get n d).
  - rewrite IH, get_setdefault.
    destruct (Dict.get n d); auto.
    destruct (String.eqb n k); auto.
Qed.

End DictFacts.

(** ** The cookie sources of a curl text *)

Module CurlFacts.

Import CurlParser Spec.

(** C2.  When [parse_curl] returns, a cookie name that the [-b] argument
    defines is bound to the [-b] value, whatever the [Cookie:] header
    says; a name that only the header defines is bound to the header's
    value; a name that only [-b] defines is bound to the [-b] value; and
    the map holds no other name. *)
Theorem parse_curl_cookie_precedence :
  forall (urlparse : string -> res unit) (curl_text url user_agent : string)
         (headers : HeaderMap) (cookies : CookieMap),
    parse_curl urlparse curl_text = Ok (url, headers, cookies, user_agent) ->
    forall name : string,
      Dict.get name cookies =
      match b_value curl_text name with
      | Some v => Some v
      | None => header_value curl_text name
      end.
Proof.
  intros urlparse curl_text url ua headers cookies H name.
  unfold parse_curl in H. unfold b_value, header_value.
  destruct (Re.search re_url (normalize curl_text)) as [m|]; [|discriminate].
  destruct (next_truthy (Re.groups_tuple 3 m)) as [u|]; simpl in H; [|discriminate].
  destruct (urlparse u) as [[]|]; simpl in H; [|discriminate].
  destruct (cookie_arg (normalize curl_text)) as [[raw|e]|]; simpl in H;
    try discriminate.
  - injection H as _ _ Hc _. subst cookies.
    destruct (cookie_header (parse_headers (normalize curl_text))) as [hdr|].
    + destruct hdr as [|c hdr]; simpl Str.truthy; cbv iota.
      * rewrite DictFacts.get_fold_set. simpl. now destruct (Spec.last_value _ _).
      * rewrite DictFacts.get_fold_setdefault, DictFacts.get_fold_set.
        now destruct (Spec.last_value _ _).
    + rewrite DictFacts.get_fold_set. now destruct (Spec.last_value _ _).
  - injection H as _ _ Hc _. subst cookies.
    destruct (cookie_header (parse_headers (normalize curl_text))) as [hdr|]; auto.
    destruct hdr as [|c hdr]; simpl Str.truthy; cbv iota; auto.
    now rewrite DictFacts.get_fold_setdefault.
Qed.

Lemma parse_curl_cookie_precedence_witness :
  parse_curl (fun _ => Ok tt) sample_text =
    Ok ("https://x/", [("cookie", "a=header; c=3")],
        [("a", "jar"); ("b", "2"); ("c", "3")], "") /\
  Dict.get "a" [("a", "jar"); ("b", "2"); ("c", "3")] = Some "jar".
Proof.
  split.
  - vm_compute. reflexivity.
  - exact (parse_curl_cookie_precedence (fun _ => Ok tt) sample_text
             "https://x/" "" [("cookie", "a=header; c=3")]
             [("a", "jar"); ("b", "2"); ("c", "3")] eq_refl "a").
Defined.

End CurlFacts.

(** ** Identity resolution *)

Module IdentityFacts.

Import VintedClient Spec.

Lemma isdigit_truthy (s : string) : Str.isdigit s = true -> Str.truthy s = true.
Proof. destruct s; simpl; auto. Qed.

Lemma token_fallback (jwt : option (string -> res json)) (cookies : cookie_jar) :
  match Dict.get "access_token_web" cookies, jwt with
  | Some token, Some decode =>
      if Str.truthy token then
        try_except
          (payload <- decode token ;;
           sub <- Py.get payload "sub" ;;
           if Py.truthy sub && Py.str_isdigit sub
           then Ok (Some (Py.int sub))
           else Ok None)%py
          None
      else None
  | _, _ => None
  end =
  match token_subject jwt cookies with
  | Some sub => numeric_id sub
  | None => None
  end.
Proof.
  unfold token_subject.
  destruct (Dict.get "access_token_web" cookies) as [token|]; auto.
  destruct jwt as [decode|]; auto.
  destruct token as [|c token]; simpl Str.truthy; cbv iota; auto.
  destruct (decode (String c token)) as [payload|e]; simpl; auto.
  destruct payload; simpl; auto.
  destruct (Py.dict_get "sub" d) as [|b|z|q|s|l|d']; simpl; auto;
    try (now rewrite andb_false_r).
  - destruct z; simpl; auto.
  - destruct (Str.isdigit s) eqn:E.
    + now rewrite (isdigit_truthy s E).
    + now rewrite andb_false_r.
Qed.

(** C3.  [get_user_id] is the identity resolution of the specification:
    the integer value of the [v_uid] cookie when its value is a string of
    digits; otherwise the [sub] claim of the [access_token_web] token,
    decoded without signature verification, when that claim is numeric;
    otherwise unresolved.  The curl text of the scenario parses to the url
    and the cookies the specification gives, and the identity resolved
    from those cookies is 42. *)
Theorem get_user_id_resolves_identity :
  (forall (jwt : option (string -> res json)) (cookies : cookie_jar),
      get_user_id jwt cookies = resolve_identity jwt cookies) /\
  (forall (urlparse : string -> res unit) (jwt : option (string -> res json)),
      urlparse "https://x/items/new" = Ok tt ->
      exists headers user_agent,
        CurlParser.parse_curl urlparse scenario_text =
          Ok ("https://x/items/new", headers, scenario_cookies, user_agent) /\
        get_user_id jwt scenario_cookies = Some 42).
Proof.
  split.
  - intros jwt cookies. unfold get_user_id, resolve_identity, session_cookie_id.
    rewrite token_fallback.
    destruct (Dict.get "v_uid" cookies) as [v|]; auto.
    destruct (Str.isdigit v) eqn:E.
    + now rewrite (isdigit_truthy v E).
    + now rewrite andb_false_r.
  - intros urlparse jwt Hurl.
    exists [("cookie", "v_uid=42")], "".
    split.
    + unfold CurlParser.parse_curl.
      replace (Re.search CurlParser.re_url (CurlParser.normalize scenario_text))
        with (Some [(1%nat, "https://x/items/new")]) by (vm_compute; reflexivity).
      replace (next_truthy (Re.groups_tuple 3 [(1%nat, "https://x/items/new")]))
        with (@Ok string "https://x/items/new") by (vm_compute; reflexivity).
      cbn [bind]. rewrite Hurl. cbn [bind].
      vm_compute. reflexivity.
    + vm_compute. reflexivity.
Qed.

Lemma get_user_id_resolves_identity_witness :
  (fun _ : string => Ok tt) "https://x/items/new" = Ok tt /\
  exists headers user_agent,
    CurlParser.parse_curl (fun _ => Ok tt) scenario_text =
      Ok ("https://x/items/new", headers, scenario_cookies, user_agent) /\
    get_user_id None scenario_cookies = Some 42.
Proof.
  split.
  - reflexivity.
  - exact (proj2 get_user_id_resolves_identity (fun _ => Ok tt) None eq_refl).
Defined.

End IdentityFacts.

(** ** The listing loop *)

Module ListingFacts.

Import VintedClient Spec.

Lemma range_snoc (n : nat) : forall page,
    range page (S n) = (range page n ++ [page + Z.of_nat n])%list.
Proof.
  induction n as [|n IH]; intros page.
  - simpl. now rewrite Z.add_0_r.
  - change (range page (S (S n))) with (page :: range (page + 1) (S n)).
    rewrite IH. simpl. do 3 f_equal. lia.
Qed.

Lemma range_In (n : nat) : forall page p,
    In p (range page n) <-> page <= p < page + Z.of_nat n.
Proof.
  induction n as [|n IH]; intros page p; simpl range.
  - simpl. lia.
  - simpl In. rewrite IH. lia.
Qed.

Lemma pages_range (n : nat) : pages n = range 1 n.
Proof.
  unfold pages.
  assert (H : forall (n s : nat), map Z.of_nat (seq s n) = range (Z.of_nat s) n).
  { clear. induction n as [|n IH]; intros s; simpl; auto.
    rewrite IH. do 2 f_equal. lia. }
  apply (H n 1%nat).
Qed.

Lemma is_none_iff (x : json) : Py.is_none x = true <-> x = JNull.
Proof. destruct x; simpl; split; congruence. Qed.

(** The tests of the code stop the loop exactly on the three conditions
    of the specification. *)
Lemma cap_test_reached (max_pages : option Z) (page : Z) :
  match max_pages with Some m => m <=? page | None => false end = true <->
  cap_reached max_pages page.
Proof.
  unfold cap_reached. destruct max_pages as [m|]; split.
  - intros E. exists m. split; auto. now apply Z.leb_le.
  - intros (m' & Hm & Hle). injection Hm as <-. now apply Z.leb_le.
  - discriminate.
  - intros (m' & Hm & _). discriminate.
Qed.

(** The tests of the code stop the loop exactly on the three conditions
    of the specification. *)
Lemma stop_test_stops per_page max_pages page items pagination b :
  stop_test per_page max_pages page items pagination = Ok b ->
  (b = true <-> stops per_page max_pages page items pagination).
Proof.
  unfold stop_test, stops, total_reached, short_page.
  intros H. pose proof (cap_test_reached max_pages page) as Hcap.
  destruct (match max_pages with Some m => m <=? page | None => false end).
  - injection H as <-. split; auto. intros _. left. now apply Hcap.
  - assert (Hno : ~ cap_reached max_pages page).
    { intros X. apply Hcap in X. discriminate. }
    destruct (Py.is_none (total_pages_of pagination)) eqn:En.
    + apply is_none_iff in En.
      destruct (Py.truthy items) eqn:Et; simpl in H.
      * destruct (Py.len items) as [n|] eqn:El; simpl in H; [|discriminate].
        injection H as <-. rewrite Z.ltb_lt. split.
        -- intros Hlt. right. right. split; auto. right. exists n. auto.
        -- intros [Hc|[[Hne _]|[_ [Hf|(n' & Hn & Hlt)]]]].
           ++ contradiction.
           ++ contradiction.
           ++ discriminate.
           ++ injection Hn as <-. exact Hlt.
      * injection H as <-. split; [intros _; right; right; auto | auto].
    + assert (Hne : total_pages_of pagination <> JNull).
      { intros Heq. apply is_none_iff in Heq. congruence. }
      split.
      * intros ->. right. left. auto.
      * intros [Hc|[[_ Hge]|[Heq _]]].
        -- contradiction.
        -- congruence.
        -- contradiction.
Qed.

Lemma iteration_inv srv per_page max_pages page new_items b :
  iteration srv per_page max_pages page = Ok (new_items, b) ->
  exists items pagination,
    wardrobe_items_page srv page = Ok (items, pagination) /\
    Py.iterate items = Ok new_items /\
    stop_test per_page max_pages page items pagination = Ok b.
Proof.
  unfold iteration. intros H.
  destruct (wardrobe_items_page srv page) as [[items pagination]|]; simpl in H;
    [|discriminate].
  destruct (Py.iterate items) as [new|] eqn:Ei; simpl in H; [|discriminate].
  destruct (stop_test per_page max_pages page items pagination) as [b'|] eqn:Es;
    simpl in H; [|discriminate].
  injection H as -> ->. exists items, pagination. repeat split; auto.
Qed.

Lemma iteration_new_items srv per_page max_pages page new_items b :
  iteration srv per_page max_pages page = Ok (new_items, b) ->
  page_new_items srv page = new_items.
Proof.
  intros H. apply iteration_inv in H as (items & pag & Hp & Hi & _).
  unfold page_new_items. now rewrite Hp, Hi.
Qed.

Lemma iteration_stops srv per_page max_pages page new_items b :
  iteration srv per_page max_pages page = Ok (new_items, b) ->
  (b = true <-> stops_at srv per_page max_pages page).
Proof.
  intros H. apply iteration_inv in H as (items & pag & Hp & Hi & Hs).
  apply stop_test_stops in Hs. rewrite Hs. unfold stops_at. split.
  - intros Hst. eauto.
  - intros (items' & pag' & Hp' & Hst). rewrite Hp in Hp'.
    injection Hp' as <- <-. exact Hst.
Qed.

Lemma goes_on_tail srv per_page max_pages page n :
  goes_on srv per_page max_pages page (S n) ->
  goes_on srv per_page max_pages (page + 1) n.
Proof.
  intros H i Hi. destruct (H (S i)) as [new Hnew]; [lia|].
  exists new. rewrite <- Hnew. f_equal. lia.
Qed.

(** [n] iterations that go on leave the loop at page [page + n]. *)
Lemma loop_forward srv per_page max_pages (n : nat) :
  forall fuel page items_all requested,
    goes_on srv per_page max_pages page n ->
    loop (n + fuel) srv per_page max_pages page items_all requested =
    loop fuel srv per_page max_pages (page + Z.of_nat n)
         (items_all ++ flat_map (page_new_items srv) (range page n))
         (requested ++ range page n).
Proof.
  induction n as [|n IH]; intros fuel page items_all requested Hgo.
  - simpl. now rewrite Z.add_0_r, !app_nil_r.
  - destruct (Hgo O) as [new Hnew]; [lia|].
    rewrite Z.add_0_r in Hnew.
    change (S n + fuel)%nat with (S (n + fuel)). cbn [loop].
    rewrite Hnew.
    rewrite IH by now apply goes_on_tail.
    replace (page + Z.of_nat (S n)) with (page + 1 + Z.of_nat n) by lia.
    simpl range. simpl flat_map.
    rewrite (iteration_new_items _ _ _ _ _ _ Hnew).
    rewrite <- !app_assoc. reflexivity.
Qed.

(** What a run that has ended looks like. *)
Lemma loop_inv srv per_page max_pages (fuel : nat) :
  forall page items_all requested out requested',
    loop fuel srv per_page max_pages page items_all requested = (out, requested') ->
    exists n : nat,
      goes_on srv per_page max_pages page n /\
      match out with
      | Returned result =>
          (n < fuel)%nat /\
          (exists new_items,
              iteration srv per_page max_pages (page + Z.of_nat n) =
                Ok (new_items, true)) /\
          result = (items_all ++ flat_map (page_new_items srv) (range page (S n)))%list /\
          requested' = (requested ++ range page (S n))%list
      | Raised e =>
          (n < fuel)%nat /\
          iteration srv per_page max_pages (page + Z.of_nat n) = Raise e /\
          requested' = (requested ++ range page (S n))%list
      | Running =>
          n = fuel /\ requested' = (requested ++ range page n)%list
      end.
Proof.
  induction fuel as [|fuel IH]; intros page items_all requested out requested' H.
  - simpl in H. injection H as <- <-. exists O. split.
    + intros i Hi. lia.
    + simpl. now rewrite app_nil_r.
  - cbn [loop] in H.
    destruct (iteration srv per_page max_pages page) as [[new [|]]|e] eqn:Hit.
    + injection H as <- <-. exists O. split; [intros i Hi; lia|].
      rewrite Z.add_0_r. repeat split; eauto; try lia.
      simpl. rewrite app_nil_r. now rewrite (iteration_new_items _ _ _ _ _ _ Hit).
    + apply IH in H as (n & Hgo & Hout). exists (S n). split.
      * intros [|i] Hi.
        -- exists new. now rewrite Z.add_0_r.
        -- destruct (Hgo i) as [new' Hnew']; [lia|]. exists new'.
           rewrite <- Hnew'. f_equal. lia.
      * replace (page + Z.of_nat (S n)) with (page + 1 + Z.of_nat n) by lia.
        change (range page (S (S n))) with (page :: range (page + 1) (S n)).
        change (range page (S n)) with (page :: range (page + 1) n).
        simpl flat_map.
        rewrite (iteration_new_items _ _ _ _ _ _ Hit).
        destruct out as [result|e|].
        -- destruct Hout as (Hlt & Hnew & -> & ->).
           repeat split; auto; try lia.
           ++ now rewrite <- !app_assoc.
           ++ now rewrite <- !app_assoc.
        -- destruct Hout as (Hlt & Hnew & ->).
           repeat split; auto; try lia. now rewrite <- !app_assoc.
        -- destruct Hout as (-> & ->). split; auto.
           now rewrite <- !app_assoc.
    + injection H as <- <-. exists O. split; [intros i Hi; lia|].
      rewrite Z.add_0_r. repeat split; auto; lia.
Qed.

Lemma iteration_false_below_cap srv per_page m page new_items :
  iteration srv per_page (Some m) page = Ok (new_items, false) -> page < m.
Proof.
  intros H. apply iteration_inv in H as (items & pag & _ & _ & Hs).
  unfold stop_test in Hs. destruct (m <=? page) eqn:E; [discriminate|].
  now apply Z.leb_gt in E.
Qed.

Lemma loop_requested_cap srv per_page m (fuel : nat) :
  forall page items_all requested p,
    page <= m ->
    In p (snd (loop fuel srv per_page (Some m) page items_all requested)) ->
    In p requested \/ page <= p <= m.
Proof.
  induction fuel as [|fuel IH]; intros page items_all requested p Hle Hin.
  - simpl in Hin. auto.
  - cbn [loop] in Hin.
    destruct (iteration srv per_page (Some m) page) as [[new [|]]|e] eqn:Hit;
      simpl in Hin.
    + apply in_app_or in Hin as [Hin|[<-|[]]]; auto. right. lia.
    + apply iteration_false_below_cap in Hit.
      apply IH in Hin as [Hin|Hin]; [|lia|lia].
      apply in_app_or in Hin as [Hin|[<-|[]]]; auto. right. lia.
    + apply in_app_or in Hin as [Hin|[<-|[]]]; auto. right. lia.
Qed.

(** C1, amended.  A run of [wardrobe_items_all] that returns has
    requested the pages 1 to [n] in order, for some [n] of at least 1,
    and returns the items of these pages in page order; it stopped at page
    [n] on one of the three conditions (the cap reached, the reported
    total-page count reached or exceeded by the reported current page, or
    a short page when no total is reported) and none of them held on an
    earlier page.  Conversely the first page on which a condition holds
    ends the run with that result, provided the iterations up to it raise
    nothing.  With a cap of at least 1 no page beyond the cap is ever
    requested; with a cap of at most 1 page 1 alone is requested. *)
Theorem wardrobe_items_all_listing :
  forall (srv : server) (per_page : Z) (max_pages : option Z),
    (forall (fuel : nat) (result : list json) (requested : list Z),
        wardrobe_items_all fuel srv per_page max_pages = (Returned result, requested) ->
        exists n : nat,
          (1 <= n <= fuel)%nat /\
          requested = pages n /\
          result = items_upto srv n /\
          stops_at srv per_page max_pages (Z.of_nat n) /\
          forall k, 1 <= k < Z.of_nat n -> ~ stops_at srv per_page max_pages k) /\
    (forall n fuel : nat,
        (1 <= n <= fuel)%nat ->
        (forall k, 1 <= k <= Z.of_nat n -> completes srv per_page max_pages k) ->
        stops_at srv per_page max_pages (Z.of_nat n) ->
        (forall k, 1 <= k < Z.of_nat n -> ~ stops_at srv per_page max_pages k) ->
        wardrobe_items_all fuel srv per_page max_pages =
          (Returned (items_upto srv n), pages n)) /\
    (forall (fuel : nat) (m p : Z),
        max_pages = Some m -> 1 <= m ->
        In p (snd (wardrobe_items_all fuel srv per_page max_pages)) ->
        1 <= p <= m) /\
    (forall (fuel : nat) (m : Z),
        max_pages = Some m -> m <= 1 -> (1 <= fuel)%nat ->
        snd (wardrobe_items_all fuel srv per_page max_pages) = [1]).
Proof.
  intros srv per_page max_pages. split; [|split; [|split]].
  - intros fuel result requested H. unfold wardrobe_items_all in H.
    apply loop_inv in H as (n0 & Hgo & Hlt & (new & Hnew) & -> & ->).
    exists (S n0). unfold items_upto. rewrite pages_range.
    repeat split; auto; try lia.
    + replace (Z.of_nat (S n0)) with (1 + Z.of_nat n0) by lia.
      now apply (iteration_stops _ _ _ _ _ _ Hnew).
    + intros k Hk Hstop.
      destruct (Hgo (Z.to_nat (k - 1))) as [new' Hnew']; [lia|].
      replace (1 + Z.of_nat (Z.to_nat (k - 1))) with k in Hnew' by lia.
      apply (iteration_stops _ _ _ _ _ _ Hnew') in Hstop. discriminate.
  - intros n fuel Hn Hcomp Hstop Hbefore.
    destruct n as [|n0]; [lia|]. destruct fuel as [|fuel0]; [lia|].
    assert (Hgo : goes_on srv per_page max_pages 1 n0).
    { intros i Hi. destruct (Hcomp (1 + Z.of_nat i)) as [[new b] Hit]; [lia|].
      exists new. destruct b; auto.
      exfalso. apply (Hbefore (1 + Z.of_nat i)); [lia|].
      now apply (iteration_stops _ _ _ _ _ _ Hit). }
    destruct (Hcomp (Z.of_nat (S n0))) as [[new b] Hit]; [lia|].
    assert (b = true) by now apply (iteration_stops _ _ _ _ _ _ Hit).
    subst b. unfold wardrobe_items_all.
    replace (S fuel0) with (n0 + S (fuel0 - n0))%nat by lia.
    rewrite loop_forward by exact Hgo.
    cbn [loop]. replace (1 + Z.of_nat n0) with (Z.of_nat (S n0)) by lia.
    rewrite Hit. unfold items_upto. rewrite pages_range, !range_snoc.
    rewrite flat_map_app. cbn [flat_map]. rewrite app_nil_r.
    replace (1 + Z.of_nat n0) with (Z.of_nat (S n0)) by lia.
    now rewrite (iteration_new_items _ _ _ _ _ _ Hit).
  - intros fuel m p -> Hm Hin. unfold wardrobe_items_all in Hin.
    apply loop_requested_cap in Hin as [[]|Hp]; lia.
  - intros [|fuel] m -> Hm Hfuel; [lia|].
    unfold wardrobe_items_all. cbn [loop].
    destruct (iteration srv per_page (Some m) 1) as [[new [|]]|e] eqn:Hit; auto.
    apply iteration_false_below_cap in Hit. lia.
Qed.

Lemma wardrobe_items_all_listing_witness :
  wardrobe_items_all 5 one_item_server 1 (Some 3) =
    (Returned [JInt 1; JInt 2; JInt 3], [1; 2; 3]) /\
  exists n : nat,
    (1 <= n <= 5)%nat /\
    [1; 2; 3] = pages n /\
    [JInt 1; JInt 2; JInt 3] = items_upto one_item_server n /\
    stops_at one_item_server 1 (Some 3) (Z.of_nat n) /\
    forall k, 1 <= k < Z.of_nat n -> ~ stops_at one_item_server 1 (Some 3) k.
Proof.
  split.
  - vm_compute. reflexivity.
  - exact (proj1 (wardrobe_items_all_listing one_item_server 1 (Some 3))
             5%nat [JInt 1; JInt 2; JInt 3] [1; 2; 3] eq_refl).
Defined.

(** C1 as it is stated fails on a cap of zero: page 1 is requested, and
    its items are returned, although it lies beyond the cap. *)
Lemma wardrobe_items_all_cap_zero :
  wardrobe_items_all 3 one_item_server 20 (Some 0) = (Returned [JInt 1], [1]) /\
  ~ (forall p, In p (snd (wardrobe_items_all 3 one_item_server 20 (Some 0))) -> p <= 0).
Proof.
  split.
  - vm_compute. reflexivity.
  - intros H. specialize (H 1). simpl in H. lia.
Qed.

Lemma stop_test_without_current per_page page items d :
  Py.dict_get "total_pages" d <> JNull ->
  Py.dict_get "current_page" d = JNull ->
  stop_test per_page None page items (JDict d) = Raise TypeError.
Proof.
  intros Ht Hc. unfold stop_test. cbn [total_pages_of current_page_of].
  destruct (Py.is_none (Py.dict_get "total_pages" d)) eqn:En.
  - apply is_none_iff in En. contradiction.
  - rewrite Hc. reflexivity.
Qed.

Lemma stop_test_with_current per_page page items d b :
  stop_test per_page None page items (JDict d) = Ok b ->
  Py.dict_get "total_pages" d <> JNull ->
  Py.dict_get "current_page" d <> JNull.
Proof.
  intros Hs Ht Hc.
  rewrite (stop_test_without_current per_page page items d Ht Hc) in Hs.
  discriminate.
Qed.

(** C9.  A page whose pagination object reports [total_pages] but no
    [current_page] makes [wardrobe_items_all] raise [TypeError] when no
    cap is in effect: such a run exists; every run that reaches such a
    page ends with the exception instead of stopping; and a run that
    returns has only met pagination objects that report [current_page]
    whenever they report [total_pages]. *)
Theorem wardrobe_items_all_total_without_current :
  (forall fuel : nat,
      (1 <= fuel)%nat ->
      wardrobe_items_all fuel total_only_server 20 None = (Raised TypeError, [1])) /\
  (forall (srv : server) (per_page : Z) (n : nat) (items : json)
          (d : list (string * json)) (new_items : list json),
      (1 <= n)%nat ->
      (forall k, 1 <= k < Z.of_nat n ->
                 exists it, iteration srv per_page None k = Ok (it, false)) ->
      wardrobe_items_page srv (Z.of_nat n) = Ok (items, JDict d) ->
      Py.iterate items = Ok new_items ->
      Py.dict_get "total_pages" d <> JNull ->
      Py.dict_get "current_page" d = JNull ->
      forall fuel : nat,
        (n <= fuel)%nat ->
        wardrobe_items_all fuel srv per_page None = (Raised TypeError, pages n)) /\
  (forall (srv : server) (per_page : Z) (fuel : nat) (result : list json)
          (requested : list Z),
      wardrobe_items_all fuel srv per_page None = (Returned result, requested) ->
      forall (p : Z) (items : json) (d : list (string * json)),
        In p requested ->
        wardrobe_items_page srv p = Ok (items, JDict d) ->
        Py.dict_get "total_pages" d <> JNull ->
        Py.dict_get "current_page" d <> JNull).
Proof.
  split; [|split].
  - intros [|fuel] Hf; [lia|]. reflexivity.
  - intros srv per_page n items d new_items Hn Hbefore Hpage Hiter Ht Hc fuel Hfuel.
    destruct n as [|n0]; [lia|].
    assert (Hgo : goes_on srv per_page None 1 n0).
    { intros i Hi. apply Hbefore. lia. }
    unfold wardrobe_items_all.
    replace fuel with (n0 + S (fuel - S n0))%nat by lia.
    rewrite loop_forward by exact Hgo.
    cbn [loop]. unfold iteration.
    replace (1 + Z.of_nat n0) with (Z.of_nat (S n0)) by lia.
    rewrite Hpage. cbn [bind]. rewrite Hiter. cbn [bind].
    rewrite (stop_test_without_current _ _ _ _ Ht Hc). cbn [bind].
    rewrite pages_range, range_snoc.
    replace (1 + Z.of_nat n0) with (Z.of_nat (S n0)) by lia. reflexivity.
  - intros srv per_page fuel result requested H p items d Hin Hpage Ht.
    unfold wardrobe_items_all in H.
    apply loop_inv in H as (n0 & Hgo & Hlt & (new & Hnew) & _ & ->).
    cbn [app] in Hin. apply range_In in Hin.
    assert (Hit : exists new' b, iteration srv per_page None p = Ok (new', b)).
    { destruct (Z.eq_dec p (1 + Z.of_nat n0)) as [->|Hne]; [eauto|].
      destruct (Hgo (Z.to_nat (p - 1))) as [new' Hnew']; [lia|].
      replace (1 + Z.of_nat (Z.to_nat (p - 1))) with p in Hnew' by lia. eauto. }
    destruct Hit as (new' & b & Hit).
    apply iteration_inv in Hit as (items' & pag' & Hp' & _ & Hs).
    rewrite Hpage in Hp'. injection Hp' as <- <-.
    exact (stop_test_with_current _ _ _ _ _ Hs Ht).
Qed.

Lemma wardrobe_items_all_total_without_current_witness :
  (1 <= 4)%nat /\
  wardrobe_items_all 4 total_only_server 20 None = (Raised TypeError, [1]).
Proof.
  split.
  - lia.
  - apply (proj1 wardrobe_items_all_total_without_current 4%nat). lia.
Defined.

End ListingFacts.

(** ** Strings *)

Module StrFacts.

Lemma append_assoc (a b c : string) : ((a ++ b) ++ c = a ++ (b ++ c))%string.
Proof. induction a as [|x a IH]; simpl; congruence. Qed.

Lemma append_cancel_l (a x y : string) : (a ++ x = a ++ y)%string -> x = y.
Proof. induction a as [|c a IH]; simpl; intros H; auto. injection H as H. auto. Qed.

Lemma append_nonempty (a b : string) : b <> EmptyString -> (a ++ b)%string <> EmptyString.
Proof. destruct a; simpl; auto. discriminate. Qed.

Lemma lstrip_app (p x : string) (c : ascii) :
  Str.isspace c = false ->
  Str.lstrip (p ++ String c x) = (Str.lstrip p ++ String c x)%string.
Proof.
  intros Hc. induction p as [|d p IH]; simpl.
  - now rewrite Hc.
  - destruct (Str.isspace d); auto.
Qed.

Lemma rstrip_app (q x : string) :
  x <> EmptyString -> Str.rstrip x = x -> Str.rstrip (q ++ x) = (q ++ x)%string.
Proof.
  intros Hx Hr. induction q as [|d q IH]; simpl; auto.
  rewrite IH. pose proof (append_nonempty q x Hx) as Hne.
  destruct (q ++ x)%string; congruence.
Qed.

Lemma endswith_app (c : ascii) (q x : string) :
  x <> EmptyString -> Str.endswith c (q ++ x) = Str.endswith c x.
Proof.
  intros Hx. induction q as [|d q IH]; simpl; auto.
  pose proof (append_nonempty q x Hx) as Hne.
  destruct (q ++ x)%string; congruence.
Qed.

Lemma replace_absent (c : ascii) (r s : string) :
  Str.contains c s = false -> Str.replace c r s = s.
Proof.
  induction s as [|d s IH]; simpl; auto.
  intros H. apply orb_false_iff in H as [Hd Hs].
  rewrite Hd. now rewrite IH.
Qed.

Lemma replace_app (c : ascii) (r a b : string) :
  Str.replace c r (a ++ b) = (Str.replace c r a ++ Str.replace c r b)%string.
Proof.
  induction a as [|d a IH]; simpl; auto.
  destruct (Ascii.eqb c d); rewrite IH; simpl; auto.
  now rewrite append_assoc.
Qed.

Lemma contains_lstrip (c : ascii) (s : string) :
  Str.contains c s = false -> Str.contains c (Str.lstrip s) = false.
Proof.
  induction s as [|d s IH]; simpl; auto.
  intros H. destruct (Str.isspace d); auto.
  apply orb_false_iff in H as [_ Hs]. auto.
Qed.

(** The text the ISO reader is given, for a text that ends in its only
    [Z] and for the same text with [+00:00] in place of that [Z]. *)
Lemma normalized_Z (p : string) :
  Str.contains "Z" p = false ->
  (let s := Str.strip (p ++ "Z") in
   if Str.endswith "Z" s then Str.replace "Z" "+00:00" s else s) =
  (let s := Str.strip (p ++ "+00:00") in
   if Str.endswith "Z" s then Str.replace "Z" "+00:00" s else s).
Proof.
  intros Hp. cbv zeta. unfold Str.strip.
  rewrite (lstrip_app p "" "Z") by reflexivity.
  rewrite (lstrip_app p "00:00" "+") by reflexivity.
  rewrite !rstrip_app by (discriminate || reflexivity).
  rewrite !endswith_app by discriminate.
  cbn [Str.endswith]. change (Ascii.eqb "Z" "Z") with true.
  change (Str.endswith "Z" "+00:00") with false. cbv iota.
  rewrite replace_app, replace_absent by now apply contains_lstrip.
  reflexivity.
Qed.

End StrFacts.

(** ** Creation dates *)

Module CreatedAtFacts.

Import Cli Spec.

Lemma dict_get_set_other (k n : string) (v : json) (d : list (string * json)) :
  n <> k -> Py.dict_get n (Dict.set k v d) = Py.dict_get n d.
Proof. intros H. unfold Py.dict_get. now rewrite DictFacts.get_set_other. Qed.

Lemma dict_get_set_same (k : string) (v : json) (d : list (string * json)) :
  Py.dict_get k (Dict.set k v d) = v.
Proof. unfold Py.dict_get. now rewrite DictFacts.get_set_same. Qed.

Lemma from_created_at_Z fromisoformat (p : string) :
  Str.contains "Z" p = false ->
  from_created_at fromisoformat (JStr (p ++ "Z")) =
  from_created_at fromisoformat (JStr (p ++ "+00:00")).
Proof.
  intros Hp. unfold from_created_at.
  assert (Ht : forall x, x <> EmptyString -> Str.truthy (p ++ x) = true).
  { intros x Hx. pose proof (StrFacts.append_nonempty p x Hx).
    destruct (p ++ x)%string; simpl; congruence. }
  rewrite !Ht by discriminate.
  pose proof (StrFacts.normalized_Z p Hp) as Hn. cbv zeta in Hn.
  now rewrite Hn.
Qed.

(** C6.  The timestamps 1700000000, read as seconds, and 1700000000000,
    read as milliseconds, give the same instant; and an item whose
    [created_at] text ends in its only [Z] (as every ISO-8601 text that
    ends in [Z] does) gets the date of the same item with [+00:00] in
    place of that [Z]. *)
Theorem parse_created_at_same_instant :
  forall fromisoformat : string -> option Datetime.parsed,
    (_parse_created_at fromisoformat (item_with_ts 1700000000) =
       Ok (Some 1700000000000000) /\
     _parse_created_at fromisoformat (item_with_ts 1700000000000) =
       Ok (Some 1700000000000000)) /\
    (forall (d : list (string * json)) (p : string),
        Str.contains "Z" p = false ->
        _parse_created_at fromisoformat (item_created_at d (p ++ "Z")) =
        _parse_created_at fromisoformat (item_created_at d (p ++ "+00:00"))).
Proof.
  intros fromisoformat. split; [split|].
  - vm_compute. reflexivity.
  - vm_compute. reflexivity.
  - intros d p Hp. unfold item_created_at, _parse_created_at.
    rewrite !dict_get_set_same.
    rewrite !(dict_get_set_other "created_at" "created_at_ts") by discriminate.
    rewrite !(dict_get_set_other "created_at" "item") by discriminate.
    rewrite !(dict_get_set_other "created_at" "photos") by discriminate.
    destruct (from_created_at_ts (Py.dict_get "created_at_ts" d)); auto.
    assert (Ht : forall x, x <> EmptyString -> Py.truthy (JStr (p ++ x)) = true).
    { intros x Hx. pose proof (StrFacts.append_nonempty p x Hx).
      simpl. destruct (p ++ x)%string; simpl; congruence. }
    rewrite !Ht by discriminate. cbn [bind].
    now rewrite (from_created_at_Z fromisoformat p Hp).
Qed.

Lemma parse_created_at_same_instant_witness :
  Str.contains "Z" "2024-01-01T00:00:00" = false /\
  _parse_created_at sample_fromisoformat
    (item_created_at [("id", JInt 7)] "2024-01-01T00:00:00Z") =
  _parse_created_at sample_fromisoformat
    (item_created_at [("id", JInt 7)] "2024-01-01T00:00:00+00:00").
Proof.
  split.
  - reflexivity.
  - exact (proj2 (parse_created_at_same_instant sample_fromisoformat)
             [("id", JInt 7)] "2024-01-01T00:00:00" eq_refl).
Defined.

End CreatedAtFacts.

(** ** The order of the listing *)

Module SortFacts.

Import Cli Spec.
Local Open Scope list_scope.

Lemma key_lt_asym (a b : Z * Datetime.t) : key_lt a b = true -> key_lt b a = false.
Proof.
  unfold key_lt. destruct a as [a1 a2], b as [b1 b2]. simpl. intros H.
  apply orb_true_iff in H as [H|H].
  - apply Z.ltb_lt in H.
    apply orb_false_iff. split; [apply Z.ltb_ge; lia|].
    apply andb_false_iff. left. apply Z.eqb_neq. lia.
  - apply andb_true_iff in H as [H1 H2].
    apply Z.eqb_eq in H1. apply Z.ltb_lt in H2. subst.
    apply orb_false_iff. split; [apply Z.ltb_irrefl|].
    apply andb_false_iff. right. apply Z.ltb_ge. lia.
Qed.

Lemma key_lt_known_unknown (x u : keyed_item) :
  known_key x -> unknown_key u -> key_lt (fst x) (fst u) = true.
Proof.
  unfold known_key, unknown_key, key_lt. intros Hx Hu. now rewrite Hx, Hu.
Qed.

Lemma key_lt_unknown (x y : keyed_item) :
  unknown_key x -> known_key y \/ unknown_key y -> key_lt (fst x) (fst y) = false.
Proof.
  unfold known_key, unknown_key, key_lt. intros Hx [Hy|Hy]; rewrite Hx, Hy.
  - reflexivity.
  - simpl. now rewrite Z.ltb_irrefl.
Qed.

Lemma insert_app_before (x : keyed_item) (A U : list keyed_item) :
  Forall (fun u => key_lt (fst x) (fst u) = true) U ->
  insert_keyed x (A ++ U) = (insert_keyed x A ++ U)%list.
Proof.
  intros HU. induction A as [|a A IH]; simpl.
  - destruct HU as [|u U Hu HU]; simpl; auto. now rewrite Hu.
  - destruct (key_lt (fst x) (fst a)); simpl; auto. now rewrite IH.
Qed.

Lemma insert_last (x : keyed_item) (L : list keyed_item) :
  Forall (fun y => key_lt (fst x) (fst y) = false) L ->
  insert_keyed x L = (L ++ [x])%list.
Proof.
  induction 1 as [|y L Hy HL IH]; simpl; auto.
  now rewrite Hy, IH.
Qed.

Lemma insert_Forall (P : keyed_item -> Prop) (x : keyed_item) (l : list keyed_item) :
  P x -> Forall P l -> Forall P (insert_keyed x l).
Proof.
  intros Hx. induction 1 as [|y l Hy Hl IH]; simpl; auto.
  destruct (key_lt (fst x) (fst y)); auto.
Qed.

Lemma insert_perm (x : keyed_item) (l : list keyed_item) :
  Permutation (insert_keyed x l) (x :: l).
Proof.
  induction l as [|y l IH]; simpl; auto.
  destruct (key_lt (fst x) (fst y)); auto.
  rewrite IH. apply perm_swap.
Qed.

Lemma fold_insert_perm (l : list keyed_item) : forall acc,
    Permutation (fold_left (fun acc x => insert_keyed x acc) l acc) (acc ++ l).
Proof.
  induction l as [|x l IH]; intros acc; simpl.
  - now rewrite app_nil_r.
  - rewrite IH, insert_perm. apply Permutation_middle.
Qed.

Lemma insert_HdRel (a x : keyed_item) (l : list keyed_item) :
  key_le a x -> HdRel key_le a l -> HdRel key_le a (insert_keyed x l).
Proof.
  intros Hax Hal. destruct l as [|y l]; simpl; auto.
  destruct (key_lt (fst x) (fst y)); auto.
  inversion Hal; auto.
Qed.

Lemma insert_sorted (x : keyed_item) (l : list keyed_item) :
  Sorted key_le l -> Sorted key_le (insert_keyed x l).
Proof.
  induction 1 as [|y l Hl IH Hy]; simpl; auto.
  destruct (key_lt (fst x) (fst y)) eqn:E.
  - constructor; auto. constructor. unfold key_le. now apply key_lt_asym.
  - constructor; auto. apply insert_HdRel; auto.
Qed.

Lemma fold_insert_sorted (l : list keyed_item) : forall acc,
    Sorted key_le acc ->
    Sorted key_le (fold_left (fun acc x => insert_keyed x acc) l acc).
Proof.
  induction l as [|x l IH]; intros acc Hacc; simpl; auto.
  apply IH. now apply insert_sorted.
Qed.

(** The sort keeps the listings of unknown date behind the others, in the
    order of the input. *)
Lemma fold_insert_split (l : list keyed_item) : forall A U,
    Forall (fun kx => known_key kx \/ unknown_key kx) l ->
    Forall known_key A -> Forall unknown_key U ->
    fold_left (fun acc x => insert_keyed x acc) l (A ++ U) =
    (fold_left (fun acc x => insert_keyed x acc) (filter known_keyb l) A ++
     U ++ filter (fun kx => negb (known_keyb kx)) l)%list.
Proof.
  induction l as [|x l IH]; intros A U Hl HA HU; simpl.
  - now rewrite app_nil_r.
  - inversion Hl as [|? ? Hx Hl']; subst. destruct Hx as [Hx|Hx].
    + assert (E : known_keyb x = true) by (apply Z.eqb_eq; exact Hx).
      rewrite E. simpl.
      rewrite insert_app_before.
      * apply IH; auto. now apply insert_Forall.
      * eapply Forall_impl; [|exact HU]. intros u Hu.
        now apply key_lt_known_unknown.
    + assert (E : known_keyb x = false).
      { unfold known_keyb. unfold unknown_key in Hx. now rewrite Hx. }
      rewrite E. simpl.
      rewrite insert_last.
      * rewrite <- app_assoc. rewrite IH; auto.
        -- now rewrite <- app_assoc.
        -- apply Forall_app. auto.
      * apply Forall_app. split.
        -- eapply Forall_impl; [|exact HA]. intros y Hy.
           apply key_lt_unknown; auto.
        -- eapply Forall_impl; [|exact HU]. intros y Hy.
           apply key_lt_unknown; auto.
Qed.

Lemma key_of_cases fromisoformat (kx : keyed_item) :
  key_of fromisoformat kx ->
  (known_key kx /\ created fromisoformat (snd kx) = Some (snd (fst kx))) \/
  (unknown_key kx /\ created fromisoformat (snd kx) = None).
Proof.
  unfold key_of, _sort_key, created, known_key, unknown_key.
  destruct (_parse_created_at fromisoformat (snd kx)) as [[d|]|e]; simpl;
    intros H; try discriminate; injection H as H; rewrite <- H; simpl; auto.
Qed.

Lemma keyed_spec fromisoformat (items : list json) : forall ks,
    keyed fromisoformat items = Ok ks ->
    map snd ks = items /\ Forall (key_of fromisoformat) ks.
Proof.
  induction items as [|x items IH]; simpl; intros ks H.
  - injection H as <-. auto.
  - destruct (_sort_key fromisoformat x) as [k|] eqn:Ek; simpl in H; [|discriminate].
    destruct (keyed fromisoformat items) as [ks'|]; simpl in H; [|discriminate].
    injection H as <-. destruct (IH ks' eq_refl) as [Hm Hk].
    simpl. split; [congruence|]. constructor; auto.
Qed.

Lemma filter_known fromisoformat (ks : list keyed_item) :
  Forall (key_of fromisoformat) ks ->
  map snd (filter known_keyb ks) = filter (dated fromisoformat) (map snd ks) /\
  map snd (filter (fun kx => negb (known_keyb kx)) ks) =
    filter (undated fromisoformat) (map snd ks).
Proof.
  induction 1 as [|kx ks Hk Hks [IH1 IH2]]; simpl; auto.
  unfold undated, dated in *.
  destruct (key_of_cases _ _ Hk) as [[Hkn Hc]|[Hun Hc]]; rewrite Hc; simpl.
  - assert (E : known_keyb kx = true) by (apply Z.eqb_eq; exact Hkn).
    rewrite E. simpl. split; congruence.
  - assert (E : known_keyb kx = false).
    { unfold known_keyb. unfold unknown_key in Hun. now rewrite Hun. }
    rewrite E. simpl. split; congruence.
Qed.

Lemma sorted_dates fromisoformat (K : list keyed_item) :
  Sorted key_le K ->
  Forall (key_of fromisoformat) K -> Forall known_key K ->
  Sorted (not_after fromisoformat) (map snd K).
Proof.
  induction 1 as [|a K HK IH Ha]; intros Hk Hn; simpl; auto.
  inversion Hk as [|? ? Hka HkK]; subst. inversion Hn as [|? ? Hna HnK]; subst.
  constructor; auto.
  destruct Ha as [|b K Hab]; simpl; constructor.
  inversion HkK as [|? ? Hkb _]; subst. inversion HnK as [|? ? Hnb _]; subst.
  unfold not_after.
  destruct (key_of_cases _ _ Hka) as [[_ Ca]|[Ua _]];
    [|unfold known_key, unknown_key in *; rewrite Ua in Hna; discriminate].
  destruct (key_of_cases _ _ Hkb) as [[_ Cb]|[Ub _]];
    [|unfold known_key, unknown_key in *; rewrite Ub in Hnb; discriminate].
  rewrite Ca, Cb. unfold key_le, key_lt in Hab.
  unfold known_key in Hna, Hnb. rewrite Hna, Hnb in Hab. simpl in Hab.
  now apply Z.ltb_ge in Hab.
Qed.

Lemma not_after_trans fromisoformat :
  Relations_1.Transitive (not_after fromisoformat).
Proof.
  intros a b c. unfold not_after.
  destruct (created fromisoformat a), (created fromisoformat b),
    (created fromisoformat c); try tauto. lia.
Qed.

(** C7.  The sorted listing is the listings of known creation date,
    oldest first, followed by the listings of unknown date in the order
    they had in the input; the sort returns whenever the date of every
    listing can be computed; and the dates unknown, 2024-01-01, 2023-06-01
    sort to 2023-06-01, 2024-01-01, unknown. *)
Theorem sort_by_created_oldest_first :
  forall fromisoformat : string -> option Datetime.parsed,
    (forall items sorted : list json,
        sort_by_created fromisoformat items = Ok sorted ->
        exists known : list json,
          sorted = known ++ filter (undated fromisoformat) items /\
          Permutation known (filter (dated fromisoformat) items) /\
          StronglySorted (not_after fromisoformat) known) /\
    (forall items : list json,
        (forall x, In x items -> exists r, _parse_created_at fromisoformat x = Ok r) ->
        exists sorted, sort_by_created fromisoformat items = Ok sorted) /\
    sort_by_created fromisoformat
      [listing_unknown; listing_2024_01_01; listing_2023_06_01] =
    Ok [listing_2023_06_01; listing_2024_01_01; listing_unknown].
Proof.
  intros fromisoformat. split; [|split].
  - intros items sorted H. unfold sort_by_created in H.
    destruct (keyed fromisoformat items) as [ks|] eqn:Ek; simpl in H; [|discriminate].
    injection H as <-.
    destruct (keyed_spec _ _ _ Ek) as [Hitems Hkeys].
    destruct (filter_known _ _ Hkeys) as [Hknown Hunknown].
    rewrite Hitems in Hknown, Hunknown.
    set (K := fold_left (fun acc x => insert_keyed x acc) (filter known_keyb ks) []).
    assert (Hsplit : sort_keyed ks = K ++ filter (fun kx => negb (known_keyb kx)) ks).
    { unfold sort_keyed. apply (fold_insert_split ks [] []); auto.
      eapply Forall_impl; [|exact Hkeys]. intros kx Hk.
      destruct (key_of_cases _ _ Hk) as [[? _]|[? _]]; auto. }
    assert (HpK : Permutation K (filter known_keyb ks)).
    { unfold K. now rewrite fold_insert_perm. }
    exists (map snd K). rewrite Hsplit, map_app, Hunknown. split; [reflexivity|].
    split.
    + rewrite <- Hknown. now apply Permutation_map.
    + apply Sorted_StronglySorted; [apply not_after_trans|].
      assert (HinK : forall kx, In kx K -> In kx ks /\ known_keyb kx = true).
      { intros kx Hin. apply (Permutation_in _ HpK) in Hin.
        now apply filter_In in Hin. }
      apply sorted_dates.
      * unfold K. apply fold_insert_sorted. constructor.
      * apply Forall_forall. intros kx Hin. apply HinK in Hin as [Hin _].
        revert kx Hin. now apply Forall_forall.
      * apply Forall_forall. intros kx Hin. apply HinK in Hin as [_ Hb].
        now apply Z.eqb_eq in Hb.
  - intros items Hall. unfold sort_by_created.
    assert (Hk : exists ks, keyed fromisoformat items = Ok ks).
    { induction items as [|x items IH]; simpl; eauto.
      destruct (Hall x) as [r Hr]; [now left|].
      destruct IH as [ks Hks]; [intros y Hy; apply Hall; now right|].
      unfold _sort_key. rewrite Hr, Hks. simpl. destruct r; simpl; eauto. }
    destruct Hk as [ks ->]. simpl. eauto.
  - vm_compute. reflexivity.
Qed.

Lemma sort_by_created_oldest_first_witness :
  sort_by_created sample_fromisoformat
    [listing_unknown; listing_2024_01_01; listing_unknown; listing_2023_06_01] =
    Ok [listing_2023_06_01; listing_2024_01_01; listing_unknown; listing_unknown] /\
  exists known : list json,
    [listing_2023_06_01; listing_2024_01_01; listing_unknown; listing_unknown] =
      known ++ filter (undated sample_fromisoformat)
        [listing_unknown; listing_2024_01_01; listing_unknown; listing_2023_06_01] /\
    Permutation known
      (filter (dated sample_fromisoformat)
         [listing_unknown; listing_2024_01_01; listing_unknown; listing_2023_06_01]) /\
    StronglySorted (not_after sample_fromisoformat) known.
Proof.
  split.
  - vm_compute. reflexivity.
  - exact (proj1 (sort_by_created_oldest_first sample_fromisoformat)
             [listing_unknown; listing_2024_01_01; listing_unknown; listing_2023_06_01]
             [listing_2023_06_01; listing_2024_01_01; listing_unknown; listing_unknown]
             eq_refl).
Defined.

End SortFacts.

(** ** The login wait *)

Module LoginFacts.

Import BrowserLogin Spec.

Lemma poll_none (o : observation) : poll o = None <-> ~ login_complete o.
Proof.
  unfold poll, login_complete.
  destruct (current_url o) as [cur|e]; simpl.
  - destruct (logged_in (_collect_cookie_dict o)) eqn:El; simpl.
    + destruct (Re.is_match re_profile cur) eqn:Em; simpl; split.
      * discriminate.
      * intros H. exfalso. apply H. eauto.
      * intros _ (cur' & Hc & _ & Hm). injection Hc as <-. congruence.
      * reflexivity.
    + split; auto. intros _ (cur' & _ & Hl & _). discriminate.
  - split; auto. intros _ (cur' & Hc & _). discriminate.
Qed.

Lemma lit_prefix (p s rest : string) :
  Re.lit p s = Some rest <-> s = (p ++ rest)%string.
Proof.
  revert s. induction p as [|a p IH]; intros s; simpl.
  - split; congruence.
  - destruct s as [|b s]; [split; discriminate|].
    destruct (Ascii.eqb a b) eqn:E.
    + apply Ascii.eqb_eq in E. subst b. rewrite IH. split; congruence.
    + split; [discriminate|]. intros H. injection H as H _.
      subst b. rewrite Ascii.eqb_refl in E. discriminate.
Qed.

Lemma rep_digit_some (n : nat) (s : string) :
  Re.rep Re.CDigit 1 (S n) s (fun rest => Some ([] : Re.groups, rest)) <> None.
Proof.
  revert n. induction s as [|c s IH]; intros n; simpl; [discriminate|].
  destruct (Str.isdigit_char c); [|discriminate].
  destruct (Re.rep Re.CDigit 1 (S (S n)) s _); discriminate.
Qed.

Lemma match_profile (cur : string) :
  Re.match_here re_profile cur =
  match Re.lit "https://www.vinted.fr/member/" cur with
  | Some rest => Re.rep Re.CDigit 1 0 rest (fun r => Some ([] : Re.groups, r))
  | None => None
  end.
Proof. reflexivity. Qed.

(** The pattern of the code matches the urls of numeric member profiles. *)
Lemma re_profile_matches (cur : string) :
  Re.is_match re_profile cur = true <-> profile_url cur.
Proof.
  unfold Re.is_match, profile_url. rewrite match_profile.
  destruct (Re.lit "https://www.vinted.fr/member/" cur) as [rest|] eqn:El.
  - apply lit_prefix in El. subst cur.
    destruct rest as [|c rest].
    + split; [discriminate|]. intros (c & r & H & _).
      apply StrFacts.append_cancel_l in H. discriminate.
    + cbn [Re.rep Re.cls_mem Nat.leb].
      destruct (Str.isdigit_char c) eqn:Ec.
      * split.
        -- intros _. exists c, rest. auto.
        -- intros _. pose proof (rep_digit_some 0 rest) as Hne.
           destruct (Re.rep Re.CDigit 1 1 rest _) as [r|] eqn:E.
           ++ reflexivity.
           ++ contradiction.
      * split; [discriminate|]. intros (c' & r & H & Hd).
        apply StrFacts.append_cancel_l in H.
        injection H as <- _. congruence.
  - split; [discriminate|]. intros (c & r & H & _).
    apply lit_prefix in H. congruence.
Qed.

Lemma wait_loop_forward (clock : nat -> Q) (driver : nat -> observation)
      (deadline : Q) (k : nat) :
  forall fuel i : nat,
    (forall j : nat, (i <= j < i + k)%nat ->
                     (clock j < deadline)%Q /\ ~ login_complete (driver j)) ->
    wait_loop (k + fuel) clock driver (Some deadline) i =
    wait_loop fuel clock driver (Some deadline) (i + k).
Proof.
  induction k as [|k IH]; intros fuel i H.
  - simpl. now rewrite Nat.add_0_r.
  - destruct (H i) as [Hlt Hno]; [lia|].
    change (S k + fuel)%nat with (S (k + fuel)). cbn [wait_loop].
    assert (E : Qle_bool deadline (clock i) = false).
    { destruct (Qle_bool deadline (clock i)) eqn:E; auto.
      apply Qle_bool_iff in E. exfalso. now apply (Qlt_not_le _ _ Hlt). }
    rewrite E. apply poll_none in Hno. rewrite Hno.
    rewrite IH.
    + f_equal. lia.
    + intros j Hj. apply H. lia.
Qed.

(** C10.  With a positive timeout, when the deadline passes at the
    reading of iteration [n] and no earlier iteration found the login
    complete, the wait raises nothing and returns the cookies the browser
    holds at that moment.  The map can be empty, and a wait that timed out
    on a browser that never reached the profile returns the very value a
    completed login returns. *)
Theorem wait_for_login_timeout :
  (forall (clock : nat -> Q) (driver : nat -> observation) (timeout : Z) (n : nat),
      0 < timeout ->
      (1 <= n)%nat ->
      (forall i : nat, (1 <= i < n)%nat ->
                       (clock i < clock O + inject_Z timeout)%Q /\
                       ~ login_complete (driver i)) ->
      (clock O + inject_Z timeout <= clock n)%Q ->
      forall fuel : nat,
        (n <= fuel)%nat ->
        _wait_for_login_and_cookies fuel clock driver timeout =
          Returned (_collect_cookie_dict (driver n))) /\
  _wait_for_login_and_cookies 10 ticking_clock blank_browser 3 = Returned [] /\
  _wait_for_login_and_cookies 10 ticking_clock home_browser 3 =
    Returned [("v_uid", "42")] /\
  _wait_for_login_and_cookies 10 ticking_clock profile_browser 3 =
    Returned [("v_uid", "42")].
Proof.
  split; [|repeat split; vm_compute; reflexivity].
  intros clock driver timeout n Ht Hn Hbefore Hdeadline fuel Hfuel.
  unfold _wait_for_login_and_cookies.
  assert (E : (timeout <=? 0) = false) by (apply Z.leb_gt; exact Ht).
  rewrite E.
  replace fuel with ((n - 1) + S (fuel - n))%nat by lia.
  rewrite wait_loop_forward.
  - replace (1 + (n - 1))%nat with n by lia. cbn [wait_loop].
    apply Qle_bool_iff in Hdeadline. now rewrite Hdeadline.
  - intros j Hj. apply Hbefore. lia.
Qed.

Lemma wait_for_login_timeout_witness :
  0 < 3 /\ (1 <= 3)%nat /\
  (forall i : nat, (1 <= i < 3)%nat ->
                   (ticking_clock i < ticking_clock O + inject_Z 3)%Q /\
                   ~ login_complete (home_browser i)) /\
  (ticking_clock O + inject_Z 3 <= ticking_clock 3)%Q /\
  (3 <= 10)%nat /\
  _wait_for_login_and_cookies 10 ticking_clock home_browser 3 =
    Returned (_collect_cookie_dict (home_browser 3)).
Proof.
  assert (H1 : 0 < 3) by lia.
  assert (H2 : (1 <= 3)%nat) by lia.
  assert (H3 : forall i : nat, (1 <= i < 3)%nat ->
                 (ticking_clock i < ticking_clock O + inject_Z 3)%Q /\
                 ~ login_complete (home_browser i)).
  { intros i Hi. split.
    - unfold ticking_clock, Qlt. simpl. lia.
    - apply poll_none. reflexivity. }
  assert (H4 : (ticking_clock O + inject_Z 3 <= ticking_clock 3)%Q).
  { unfold ticking_clock, Qle. simpl. lia. }
  assert (H5 : (3 <= 10)%nat) by lia.
  exact (conj H1 (conj H2 (conj H3 (conj H4 (conj H5
           (proj1 wait_for_login_timeout ticking_clock home_browser 3 3%nat
              H1 H2 H3 H4 10%nat H5)))))).
Defined.

End LoginFacts.

(** ** Photo urls *)

Module PhotoFacts.

Import BrowserReposter Spec.

Lemma or_chain_first_present (p : list (string * json)) :
  let u := Py.or (Py.or (Py.or (Py.or (Py.dict_get "full_size_url" p)
                                      (Py.dict_get "url" p))
                               (Py.dict_get "image_url" p))
                        (Py.dict_get "original_url" p))
                 (Py.dict_get "original" p) in
  match first_present top_fields p with
  | Some v => u = v /\ Py.truthy u = true
  | None => Py.truthy u = false
  end.
Proof.
  unfold top_fields, Py.or. cbn [first_present]. cbv zeta.
  destruct (Py.truthy (Py.dict_get "full_size_url" p)) eqn:E1;
    [repeat (cbv iota; rewrite ?E1); auto|].
  destruct (Py.truthy (Py.dict_get "url" p)) eqn:E2;
    [repeat (cbv iota; rewrite ?E2); auto|].
  destruct (Py.truthy (Py.dict_get "image_url" p)) eqn:E3;
    [repeat (cbv iota; rewrite ?E3); auto|].
  destruct (Py.truthy (Py.dict_get "original_url" p)) eqn:E4;
    [repeat (cbv iota; rewrite ?E4); auto|].
  destruct (Py.truthy (Py.dict_get "original" p)) eqn:E5;
    repeat (cbv iota; rewrite ?E5); auto.
Qed.

Lemma pick_format_first_available (keys : list string)
      (formats : list (string * json)) : forall u : json,
    Py.truthy u = false ->
    match first_available keys formats with
    | Some v => pick_format keys formats u = v /\ Py.truthy v = true
    | None => Py.truthy (pick_format keys formats u) = false
    end.
Proof.
  induction keys as [|k keys IH]; intros u Hu; simpl; auto.
  destruct (Dict.get k formats) as [[|b|z|q|s|l|f]|];
    try (apply IH; exact Hu).
  destruct (Py.truthy (Py.dict_get "url" f)) eqn:E; [auto|].
  apply IH. exact E.
Qed.

(** The resolution of [browser_reposter.py] follows the priority order of
    the specification: it yields a url exactly when the specification
    resolves the entry to it. *)
Lemma photo_url_priority (p : list (string * json)) (u : json) :
  Py.truthy u = true ->
  (photo_url (JDict p) = Ok u <-> resolved_url p = Some u).
Proof.
  intros Hu. unfold photo_url, resolved_url.
  change format_keys with sub_formats.
  pose proof (or_chain_first_present p) as Hchain. cbv zeta in Hchain.
  match type of Hchain with
  | context [Py.truthy ?e] => set (u0 := e) in *; clearbody u0
  end.
  destruct (first_present top_fields p) as [v|].
  - destruct Hchain as [Heq Hv]. rewrite Hv, Heq. split; congruence.
  - rewrite Hchain.
    destruct (Py.dict_get "formats" p) as [|b|z|q|s|l|formats].
    7: { pose proof (pick_format_first_available sub_formats formats u0 Hchain) as Hp.
         destruct (first_available sub_formats formats) as [v|].
         - rewrite (proj1 Hp). split; congruence.
         - split; [|discriminate]. intros H.
           assert (Hpu : pick_format sub_formats formats u0 = u) by congruence.
           rewrite Hpu in Hp. congruence. }
    all: split; [|discriminate]; intros H; injection H as H;
      rewrite H in Hchain; congruence.
Qed.

(** C4, at the inputs where the code departs from it.  On the entry of the
    example both resolutions give [L.jpg]; with the two formats in the
    other order [browser_reposter.py] still gives [L.jpg], as the priority
    order demands, and [_extract_url] of [cli.py] gives [O.jpg]; and an
    entry whose url is under [original_url] is resolved by
    [browser_reposter.py] and skipped by [cli.py]. *)
Theorem extract_url_ignores_priority :
  (photo_url (JDict formats_entry) = Ok (JStr "L.jpg") /\
   Cli._extract_url (JDict formats_entry) = JStr "L.jpg") /\
  (resolved_url formats_entry_reversed = Some (JStr "L.jpg") /\
   photo_url (JDict formats_entry_reversed) = Ok (JStr "L.jpg") /\
   Cli._extract_url (JDict formats_entry_reversed) = JStr "O.jpg") /\
  (resolved_url original_url_entry = Some (JStr "X.jpg") /\
   photo_url (JDict original_url_entry) = Ok (JStr "X.jpg") /\
   Cli._extract_url (JDict original_url_entry) = JBool false).
Proof. repeat split; vm_compute; reflexivity. Qed.

End PhotoFacts.

(** ** Prices *)

Module PriceFacts.

Import Spec.

(** In [collect_item_data] a string amount is read with its commas turned
    into points, and a text that does not read as a number leaves the
    price absent. *)
Lemma collect_item_data_price_string (float_of_str : string -> option Q)
      (int_of_str : string -> option Z)
      (base_item : list (string * json)) (s : string) (r : BrowserReposter.RepostItemData) :
  string_amount base_item s ->
  BrowserReposter.collect_item_data float_of_str int_of_str base_item None = Ok r ->
  BrowserReposter.price r =
  match float_of_str (Str.replace "," "." s) with
  | Some q => JFloat q
  | None => JNull
  end.
Proof.
  unfold BrowserReposter.collect_item_data. cbn [Dict.update fold_left].
  intros Hs H.
  destruct (BrowserReposter.int_of int_of_str (Py.dict_get "id" base_item));
    cbn [bind] in H; [|discriminate].
  destruct (BrowserReposter._extract_photo_urls base_item);
    cbn [bind] in H; [|discriminate].
  injection H as <-. cbn [BrowserReposter.price].
  unfold BrowserReposter.amount_of.
  destruct Hs as [Hn|(Hn & pd & Hp & Ha)]; rewrite Hn; simpl.
  - now destruct (float_of_str _).
  - rewrite Hp, Ha. now destruct (float_of_str _).
Qed.

(** C5, at the input where the code departs from it.  For an amount
    written [12,50], whatever [float] does on the texts it is given,
    [collect_item_data] reads the text [12.50]; [main] of [cli.py] gives
    [float] the text with its comma, so that when [float] rejects it the
    price is absent and the payload carries the price zero. *)
Theorem cli_price_keeps_comma :
  forall (float_of_str : string -> option Q) (int_of_str : string -> option Z),
    float_of_str "12,50" = None ->
    string_amount comma_src "12,50" /\
    (exists r,
        BrowserReposter.collect_item_data float_of_str int_of_str comma_src None = Ok r /\
        BrowserReposter.price r =
          match float_of_str "12.50" with
          | Some q => JFloat q
          | None => JNull
          end) /\
    Cli.price_val float_of_str comma_src = JNull /\
    Cli.payload_price float_of_str comma_src = JInt 0.
Proof.
  intros float_of_str int_of_str Hcomma.
  assert (Hs : string_amount comma_src "12,50").
  { right. split; [reflexivity|]. eexists. split; reflexivity. }
  split; [exact Hs|]. split.
  - eexists. split; [reflexivity|].
    exact (collect_item_data_price_string float_of_str int_of_str comma_src
             "12,50" _ Hs eq_refl).
  - unfold Cli.payload_price, Cli.price_val. simpl. rewrite Hcomma. auto.
Qed.

Lemma cli_price_keeps_comma_witness :
  decimal_reader "12,50" = None /\
  (exists r,
      BrowserReposter.collect_item_data decimal_reader (fun _ => None) comma_src None = Ok r /\
      BrowserReposter.price r = JFloat (25 # 2)) /\
  Cli.price_val decimal_reader comma_src = JNull /\
  Cli.payload_price decimal_reader comma_src = JInt 0.
Proof.
  split.
  - reflexivity.
  - exact (proj2 (cli_price_keeps_comma decimal_reader (fun _ => None) eq_refl)).
Defined.

End PriceFacts.

(** ** Exit codes *)

Module ExitFacts.

Import Cli Spec.

Lemma parse_zero_id_text (urlparse : string -> res unit) :
  urlparse "https://www.vinted.fr/" = Ok tt ->
  CurlParser.parse_curl urlparse zero_id_text =
    Ok ("https://www.vinted.fr/", [], [("v_uid", "0")], "").
Proof.
  intros Hurl. unfold CurlParser.parse_curl.
  replace (Re.search CurlParser.re_url (CurlParser.normalize zero_id_text))
    with (Some [(1%nat, "https://www.vinted.fr/")]) by (vm_compute; reflexivity).
  replace (next_truthy (Re.groups_tuple 3 [(1%nat, "https://www.vinted.fr/")]))
    with (@Ok string "https://www.vinted.fr/") by (vm_compute; reflexivity).
  cbn [bind]. rewrite Hurl. cbn [bind].
  vm_compute. reflexivity.
Qed.

(** The explicit exits of [main]: code 1 at the identity gate, when the
    resolved id is absent or zero, and at the CSRF gate, when the token is
    absent or empty; code 0 on an empty listing; code 2 when the creation
    call raises. *)
Lemma main_exit_codes (w : world) (code : Z) :
  main w = Exit code ->
  (code = 1 /\
   ((exists cookies, session_cookies w = Some cookies /\
                     (VintedClient.get_user_id (jwt w) cookies = None \/
                      VintedClient.get_user_id (jwt w) cookies = Some 0)) \/
    csrf w = None \/ csrf w = Some "")) \/
  (code = 0 /\
   fst (VintedClient.wardrobe_items_all (fuel w) (srv w) (per_page w) None) =
     VintedClient.Returned []) \/
  (code = 2 /\ exists e, create_item w = Raise e).
Proof.
  unfold main, session_cookies.
  destruct (CurlParser.parse_curl (urlparse w) (curl_text w))
    as [[[[url headers] cookies] ua]|e]; [|discriminate].
  set (session := match login_browser w with
                  | Some (Ok b_cookies) => Dict.update cookies b_cookies
                  | _ => cookies
                  end).
  destruct (VintedClient.get_user_id (jwt w) session) as [uid|] eqn:Eid.
  2: { intros H. injection H as <-. left. split; auto. left. eauto. }
  destruct (uid =? 0) eqn:Ez.
  { apply Z.eqb_eq in Ez. subst uid.
    intros H. injection H as <-. left. split; auto. left. eauto. }
  destruct (VintedClient.wardrobe_items_all (fuel w) (srv w) (per_page w) None)
    as [[items|e|] requested]; try discriminate.
  destruct items as [|it items].
  { intros H. injection H as <-. right. left. auto. }
  destruct (bind _ _) as [enriched|e]; [|discriminate].
  destruct (selection w) as [idx|]; [|discriminate].
  destruct (negb _); [discriminate|].
  destruct (negb (confirm w)); [discriminate|].
  assert (Hgate :
    match csrf w with
    | Some token =>
        if negb (Str.truthy token) then Exit 1
        else match prepare w with
             | Ok _ => match create_item w with
                       | Ok _ => Return
                       | Raise _ => Exit 2
                       end
             | Raise e => Uncaught e
             end
    | None => Exit 1
    end = Exit code ->
    (code = 1 /\ (csrf w = None \/ csrf w = Some "")) \/
    (code = 2 /\ exists e, create_item w = Raise e)).
  { destruct (csrf w) as [token|].
    - destruct token as [|c token]; simpl.
      + intros H. injection H as <-. left. auto.
      + destruct (prepare w); [|discriminate].
        destruct (create_item w) as [|e]; [discriminate|].
        intros H. injection H as <-. right. eauto.
    - intros H. injection H as <-. left. auto. }
  destruct (browser w) as [[[|]|e]|]; try discriminate;
    intros H; apply Hgate in H as [[-> Hc]|[-> Hc]]; auto.
Qed.

(** With any other digit-string cookie the same world runs to the end:
    the listing is fetched, the item is created and the exit status is 0. *)
Lemma main_proceeds_on_user_id_42 :
  main nonzero_id_world = Return /\
  exit_status (main nonzero_id_world) = Some 0.
Proof. split; vm_compute; reflexivity. Qed.

(** C8, at the input where the code departs from it.  With the session
    cookie [v_uid=0] the identity resolution returns the user id 0, and
    [main] leaves by the exit of the unresolved identity, with code 1,
    whatever the later steps would have done. *)
Theorem main_exits_on_user_id_zero :
  forall w : world,
    curl_text w = zero_id_text ->
    urlparse w "https://www.vinted.fr/" = Ok tt ->
    login_browser w = None ->
    session_cookies w = Some [("v_uid", "0")] /\
    resolve_identity (jwt w) [("v_uid", "0")] = Some 0 /\
    VintedClient.get_user_id (jwt w) [("v_uid", "0")] = Some 0 /\
    main w = Exit 1 /\
    exit_status (main w) = Some 1.
Proof.
  intros w Ht Hu Hl.
  assert (Hid : VintedClient.get_user_id (jwt w) [("v_uid", "0")] = Some 0)
    by reflexivity.
  assert (Hmain : main w = Exit 1).
  { unfold main. rewrite Ht, (parse_zero_id_text _ Hu), Hl, Hid. reflexivity. }
  repeat split; auto.
  - unfold session_cookies. now rewrite Ht, (parse_zero_id_text _ Hu), Hl.
  - now rewrite Hmain.
Qed.

Lemma main_exits_on_user_id_zero_witness :
  curl_text zero_id_world = zero_id_text /\
  urlparse zero_id_world "https://www.vinted.fr/" = Ok tt /\
  login_browser zero_id_world = None /\
  VintedClient.get_user_id (jwt zero_id_world) [("v_uid", "0")] = Some 0 /\
  main zero_id_world = Exit 1.
Proof.
  pose proof (main_exits_on_user_id_zero zero_id_world eq_refl eq_refl eq_refl)
    as (_ & _ & Hid & Hmain & _).
  exact (conj eq_refl (conj eq_refl (conj eq_refl (conj Hid Hmain)))).
Defined.

End ExitFacts.
